(** * Cyber VM (src/vm.c): value representation and dispatch loop

    A shallow embedding of the C port of the Cyber bytecode interpreter.
    Machine integers are [Z] with the conversions of C written out, a
    [Value] is its 64-bit pattern, and memory is split into the three
    regions the interpreter touches: the evaluation stack (one [Value]
    per 8-byte slot), the bytecode (one byte per address, writable) and
    the headers of heap objects. *)

From Stdlib Require Import ZArith Lia Bool List.
From Stdlib Require Import Strings.Byte.
From Stdlib Require Floats.SpecFloat.
Import ListNotations.
Local Open Scope Z_scope.

(** ** C integer conversions *)

Definition to_u8 (n : Z) : Z := n mod 2 ^ 8.
Definition to_u16 (n : Z) : Z := n mod 2 ^ 16.
Definition to_u32 (n : Z) : Z := n mod 2 ^ 32.
Definition to_u64 (n : Z) : Z := n mod 2 ^ 64.

(** Conversion to a signed type keeps the low bits and reads them in
    two's complement. *)
Definition to_i8 (n : Z) : Z := (n + 2 ^ 7) mod 2 ^ 8 - 2 ^ 7.
Definition to_i16 (n : Z) : Z := (n + 2 ^ 15) mod 2 ^ 16 - 2 ^ 15.
Definition to_i32 (n : Z) : Z := (n + 2 ^ 31) mod 2 ^ 32 - 2 ^ 31.

(** ** Value representation (vm.c, lines 4-42) *)

Module Val.

Definition Value := Z.

Definition SIGN_MASK : Z := Z.shiftl 1 63.
Definition TAGGED_VALUE_MASK : Z := 0x7ffc000000000000.
Definition TAG_MASK : Z := Z.shiftl 1 3 - 1.
Definition TAGGED_PRIMITIVE_MASK : Z :=
  Z.lor TAGGED_VALUE_MASK (Z.shiftl TAG_MASK 32).
Definition TAG_NONE : Z := 0.
Definition TAG_BOOLEAN : Z := 1.
Definition TAG_ERROR : Z := 2.
Definition TAG_INTEGER : Z := 7.
Definition INTEGER_MASK : Z := Z.lor TAGGED_VALUE_MASK (Z.shiftl TAG_INTEGER 32).
Definition BOOLEAN_MASK : Z := Z.lor TAGGED_VALUE_MASK (Z.shiftl TAG_BOOLEAN 32).
Definition FALSE_MASK : Z := BOOLEAN_MASK.
Definition TRUE_BIT_MASK : Z := 1.
Definition TRUE_MASK : Z := Z.lor BOOLEAN_MASK TRUE_BIT_MASK.
Definition NONE_MASK : Z := Z.lor TAGGED_VALUE_MASK (Z.shiftl TAG_NONE 32).
Definition POINTER_MASK : Z := Z.lor TAGGED_VALUE_MASK SIGN_MASK.
(** The define of [ERROR_MASK] in vm.c carries a stray [=] and [;] and is
    never expanded; this is the value it spells. *)
Definition ERROR_MASK : Z := Z.lor TAGGED_VALUE_MASK (Z.shiftl TAG_ERROR 32).

(** [VALUE_INTEGER(n)] is [(INTEGER_MASK | n)] with [n] an [int32_t]
    expression: the usual arithmetic conversions turn [n] into a
    [uint64_t], which sign-extends it. *)
Definition VALUE_INTEGER (n : Z) : Value := Z.lor INTEGER_MASK (to_u64 n).
Definition VALUE_BOOLEAN (b : bool) : Value := if b then TRUE_MASK else FALSE_MASK.
Definition VALUE_NONE : Value := NONE_MASK.
Definition VALUE_TRUE : Value := TRUE_MASK.
Definition VALUE_FALSE : Value := FALSE_MASK.
Definition VALUE_RAW (u : Z) : Value := u.

(** [~POINTER_MASK] on 64 bits. *)
Definition NOT_POINTER_MASK : Z := to_u64 (Z.lnot POINTER_MASK).

Definition VALUE_AS_HEAPOBJECT (v : Value) : Z := Z.land v NOT_POINTER_MASK.
Definition VALUE_AS_INTEGER (v : Value) : Z := to_i32 (Z.land v 0xffffffff).
Definition VALUE_AS_BOOLEAN (v : Value) : bool := v =? TRUE_MASK.
Definition VALUE_IS_BOOLEAN (v : Value) : bool :=
  Z.land v (Z.lor TAGGED_PRIMITIVE_MASK SIGN_MASK) =? BOOLEAN_MASK.
Definition VALUE_IS_POINTER (v : Value) : bool :=
  Z.land v POINTER_MASK =? POINTER_MASK.
Definition VALUE_IS_NONE (v : Value) : bool := v =? NONE_MASK.
Definition VALUE_ASSUME_NOT_BOOL_TO_BOOL (v : Value) : bool := VALUE_IS_NONE v.
Definition VALUE_IS_NUMBER (v : Value) : bool :=
  negb (Z.land v TAGGED_VALUE_MASK =? TAGGED_VALUE_MASK).
Definition VALUE_BOTH_NUMBERS (v1 v2 : Value) : bool :=
  VALUE_IS_NUMBER v1 && VALUE_IS_NUMBER v2.
Definition VALUE_GET_TAG (v : Value) : Z := Z.land (to_u32 (Z.shiftr v 32)) TAG_MASK.

(** A double is carried as its bit pattern: [VALUE_NUMBER] and
    [VALUE_AS_NUMBER] go through the [ValueUnion] and change no bit. *)
Definition VALUE_NUMBER (d : Z) : Value := d.
Definition VALUE_AS_NUMBER (v : Value) : Z := v.

(** Modelled from the spec: the integer, error and other-primitive tests
    are not in vm.c.  The data model makes them the non-pointer tagged
    values whose 3-bit tag field is 7, 2, or one of the remaining codes
    3..6; the tests are written after [VALUE_IS_BOOLEAN]. *)
Definition VALUE_IS_INTEGER (v : Value) : bool :=
  Z.land v (Z.lor TAGGED_PRIMITIVE_MASK SIGN_MASK) =? INTEGER_MASK.
Definition VALUE_IS_ERROR (v : Value) : bool :=
  Z.land v (Z.lor TAGGED_PRIMITIVE_MASK SIGN_MASK) =? ERROR_MASK.
Definition VALUE_IS_OTHER_PRIMITIVE (v : Value) : bool :=
  (Z.land v POINTER_MASK =? TAGGED_VALUE_MASK)
  && (3 <=? VALUE_GET_TAG v) && (VALUE_GET_TAG v <=? 6).

Definition is_i32 (n : Z) : Prop := - 2 ^ 31 <= n < 2 ^ 31.

End Val.
Import Val.

(** ** Doubles

    A C [double] is carried as its IEEE-754 binary64 bit pattern.  The
    comparisons and the negation the interpreter applies are exact on
    patterns: a NaN compares false with everything, the two zeros are
    equal, and otherwise the order is that of the signed magnitudes. *)

Module F64.

Definition MAGNITUDE_MASK : Z := 0x7fffffffffffffff.
Definition INF_BITS : Z := 0x7ff0000000000000.

Definition sign (d : Z) : bool := Z.testbit d 63.
Definition magnitude (d : Z) : Z := Z.land d MAGNITUDE_MASK.
Definition is_nan (d : Z) : bool := INF_BITS <? magnitude d.
Definition key (d : Z) : Z := if sign d then - magnitude d else magnitude d.

(** [a == b] and [a < b] on doubles. *)
Definition eqb (a b : Z) : bool :=
  negb (is_nan a) && negb (is_nan b) && (key a =? key b).
Definition ltb (a b : Z) : bool :=
  negb (is_nan a) && negb (is_nan b) && (key a <? key b).

(** Unary minus flips the sign bit. *)
Definition neg (d : Z) : Z := Z.lxor d SIGN_MASK.

Definition zero : Z := 0.

(** [(double)n] for an integer of magnitude below [2^53], which is exact. *)
Definition of_int (n : Z) : Z :=
  if n =? 0 then 0
  else
    let a := Z.abs n in
    let e := Z.log2 a in
    Z.lor (if n <? 0 then SIGN_MASK else 0)
          (Z.lor (Z.shiftl (1023 + e) 52) (Z.shiftl (a - 2 ^ e) (52 - e))).

End F64.

(** ** Sums and differences of doubles

    C's [+] and [-] on [double] are the IEEE-754 binary64 operations in
    the default rounding, to nearest with ties to even.  A pattern is
    taken apart into sign, exponent and fraction, the operation is the
    one of the Standard Library's [SpecFloat] at precision 53 and
    maximal exponent 1024, and the result is put together again.

    C leaves the sign and the payload of a NaN result to the platform.
    The result here is the one of x86-64: a NaN operand, the left one
    when both are, comes back with its quiet bit set, and an operation
    on infinities that has no value gives [DEFAULT_NAN]. *)

Module Binary64.

Import SpecFloat.

Definition PREC : Z := 53.
Definition EMAX : Z := 1024.
Definition QUIET_BIT : Z := 0x0008000000000000.
Definition DEFAULT_NAN : Z := 0xfff8000000000000.

Definition exponent (d : Z) : Z := Z.land (Z.shiftr d 52) 0x7ff.
Definition fraction (d : Z) : Z := Z.land d 0xfffffffffffff.

(** Exponent field 0 holds the zeros and the subnormals, whose value is
    [fraction * 2^-1074]; 0x7ff holds the infinities and the NaNs; any
    other holds [(2^52 + fraction) * 2^(exponent - 1075)]. *)
Definition decode (d : Z) : spec_float :=
  let s := F64.sign d in
  if exponent d =? 0 then
    match fraction d with
    | Zpos f => S754_finite s f (-1074)
    | _ => S754_zero s
    end
  else if exponent d =? 0x7ff then
    if fraction d =? 0 then S754_infinity s else S754_nan
  else
    match 2 ^ 52 + fraction d with
    | Zpos f => S754_finite s f (exponent d - 1075)
    | _ => S754_nan
    end.

Definition signed (s : bool) (magnitude : Z) : Z :=
  Z.lor (if s then SIGN_MASK else 0) magnitude.

(** The pattern of a result of [SpecFloat], whose finite values come
    with 53 significant bits, or with fewer and the exponent -1074. *)
Definition encode (x : spec_float) : Z :=
  match x with
  | S754_zero s => signed s 0
  | S754_infinity s => signed s F64.INF_BITS
  | S754_nan => DEFAULT_NAN
  | S754_finite s f e =>
      if Zpos f <? 2 ^ 52 then signed s (Zpos f)
      else signed s (Z.lor (Z.shiftl (e + 1075) 52) (Zpos f - 2 ^ 52))
  end.

Definition arith (op : spec_float -> spec_float -> spec_float) (a b : Z) : Z :=
  if F64.is_nan a then Z.lor a QUIET_BIT
  else if F64.is_nan b then Z.lor b QUIET_BIT
  else encode (op (decode a) (decode b)).

Definition add : Z -> Z -> Z := arith (SFadd PREC EMAX).
Definition sub : Z -> Z -> Z := arith (SFsub PREC EMAX).


End Binary64.

(** ** Opcodes

    The enumeration is declared in vm.h; its order is the order of the
    jump table of [execBytecode], which is indexed by the opcode byte. *)

Inductive OpCode : Type :=
| CodeConstOp | CodeConstI8 | CodeConstI8Int | CodeAdd | CodeSub
| CodeTrue | CodeFalse | CodeNone | CodeNot | CodeCopy
| CodeCopyReleaseDst | CodeSetIndex | CodeSetIndexRelease
| CodeCopyRetainSrc | CodeIndex | CodeReverseIndex | CodeList | CodeMap
| CodeMapEmpty | CodeSlice | CodeJumpNotCond | CodeJumpCond | CodeJump
| CodeRelease | CodeReleaseN | CodeCallObjSym | CodeCallObjNativeFuncIC
| CodeCallObjFuncIC | CodeCallSym | CodeCallFuncIC | CodeCallNativeFuncIC
| CodeRet1 | CodeRet0 | CodeCall0 | CodeCall1 | CodeField | CodeFieldIC
| CodeFieldRetain | CodeFieldRetainIC | CodeFieldRelease | CodeLambda
| CodeClosure | CodeCompare | CodeLess | CodeGreater | CodeLessEqual
| CodeGreaterEqual | CodeMul | CodeDiv | CodePow | CodeMod
| CodeCompareNot | CodeStringTemplate | CodeNeg | CodeSetInitN
| CodeObjectSmall | CodeObject | CodeSetField | CodeSetFieldRelease
| CodeSetFieldReleaseIC | CodeCoinit | CodeCoyield | CodeCoresume
| CodeCoreturn | CodeRetain | CodeCopyRetainRelease | CodeBox
| CodeSetBoxValue | CodeSetBoxValueRelease | CodeBoxValue
| CodeBoxValueRetain | CodeTag | CodeTagLiteral | CodeTryValue
| CodeBitwiseAnd | CodeBitwiseOr | CodeBitwiseXor | CodeBitwiseNot
| CodeBitwiseLeftShift | CodeBitwiseRightShift | CodeJumpNotNone
| CodeAddInt | CodeSubInt | CodeLessInt | CodeForRangeInit | CodeForRange
| CodeForRangeReverse | CodeMatch | CodeStaticFunc | CodeStaticVar
| CodeSetStaticVar | CodeSetStaticFunc | CodeSym | CodeEnd.

Definition jumpTable : list OpCode :=
  [ CodeConstOp; CodeConstI8; CodeConstI8Int; CodeAdd; CodeSub;
    CodeTrue; CodeFalse; CodeNone; CodeNot; CodeCopy;
    CodeCopyReleaseDst; CodeSetIndex; CodeSetIndexRelease;
    CodeCopyRetainSrc; CodeIndex; CodeReverseIndex; CodeList; CodeMap;
    CodeMapEmpty; CodeSlice; CodeJumpNotCond; CodeJumpCond; CodeJump;
    CodeRelease; CodeReleaseN; CodeCallObjSym; CodeCallObjNativeFuncIC;
    CodeCallObjFuncIC; CodeCallSym; CodeCallFuncIC; CodeCallNativeFuncIC;
    CodeRet1; CodeRet0; CodeCall0; CodeCall1; CodeField; CodeFieldIC;
    CodeFieldRetain; CodeFieldRetainIC; CodeFieldRelease; CodeLambda;
    CodeClosure; CodeCompare; CodeLess; CodeGreater; CodeLessEqual;
    CodeGreaterEqual; CodeMul; CodeDiv; CodePow; CodeMod;
    CodeCompareNot; CodeStringTemplate; CodeNeg; CodeSetInitN;
    CodeObjectSmall; CodeObject; CodeSetField; CodeSetFieldRelease;
    CodeSetFieldReleaseIC; CodeCoinit; CodeCoyield; CodeCoresume;
    CodeCoreturn; CodeRetain; CodeCopyRetainRelease; CodeBox;
    CodeSetBoxValue; CodeSetBoxValueRelease; CodeBoxValue;
    CodeBoxValueRetain; CodeTag; CodeTagLiteral; CodeTryValue;
    CodeBitwiseAnd; CodeBitwiseOr; CodeBitwiseXor; CodeBitwiseNot;
    CodeBitwiseLeftShift; CodeBitwiseRightShift; CodeJumpNotNone;
    CodeAddInt; CodeSubInt; CodeLessInt; CodeForRangeInit; CodeForRange;
    CodeForRangeReverse; CodeMatch; CodeStaticFunc; CodeStaticVar;
    CodeSetStaticVar; CodeSetStaticFunc; CodeSym; CodeEnd ].

(** The value of an [Inst] byte as an integer. *)
Definition u8 (b : Byte.byte) : Z := Z.of_N (Byte.to_N b).

Definition decodeOp (b : Byte.byte) : option OpCode :=
  nth_error jumpTable (N.to_nat (Byte.to_N b)).

(** The bytes of the three opcodes the interpreter writes back into the
    instruction stream. *)
Definition byte_CallObjSym : Byte.byte := Byte.x19.
Definition byte_ForRange : Byte.byte := Byte.x55.
Definition byte_ForRangeReverse : Byte.byte := Byte.x56.

(** ** Machine state *)

(** Modelled from the spec: vm.h is absent; the result codes are those of
    [CsResultCode] in cyber.h (0 Success, 1 Token, 2 Parse, 3 Compile,
    4 Panic, 5 Unknown). *)
Inductive ResultCode : Type :=
| RES_CODE_SUCCESS | RES_CODE_TOKEN | RES_CODE_PARSE
| RES_CODE_COMPILE | RES_CODE_PANIC | RES_CODE_UNKNOWN.

Definition ResultCode_eqb (a b : ResultCode) : bool :=
  match a, b with
  | RES_CODE_SUCCESS, RES_CODE_SUCCESS | RES_CODE_TOKEN, RES_CODE_TOKEN
  | RES_CODE_PARSE, RES_CODE_PARSE | RES_CODE_COMPILE, RES_CODE_COMPILE
  | RES_CODE_PANIC, RES_CODE_PANIC | RES_CODE_UNKNOWN, RES_CODE_UNKNOWN => true
  | _, _ => false
  end.

(** The common header of a heap object ([obj->retainedCommon]). *)
Record RetainedCommon : Type := mkRetainedCommon {
  typeId : Z;
  rc : Z
}.

(** The [VM] structure together with the memory reachable from it.
    Addresses are byte addresses; a stack slot is 8 bytes wide. *)
Record VM : Type := mkVM {
  curPc : Z;
  curStack : Z;
  stackEndPtr : Z;
  refCounts : Z;
  constPtr : Z -> Value;
  heap : Z -> RetainedCommon;
  stackMem : Z -> Value;
  bytecode : Z -> Byte.byte
}.

(** The two registers of the dispatch loop, with the VM. *)
Record Machine : Type := mkMachine {
  pc : Z;
  stack : Z;
  vm : VM
}.

Record ValueResult : Type := mkValueResult {
  val : Value;
  code : ResultCode
}.

Record CallObjSymResult : Type := mkCallObjSymResult {
  cos_pc : Z;
  cos_stack : Z;
  cos_code : ResultCode
}.

Record CallSymResult : Type := mkCallSymResult {
  cs_pc : Z;
  cs_stack : Z
}.

(** What is compiled in or linked against vm.c: the build flag, the
    constant of vm.h, the functions implemented outside this file, the
    native functions reached through a pointer, and the two arithmetic
    operations on doubles that are not defined here. *)
Record Host : Type := mkHost {
  TRACK_GLOBAL_RC : bool;
  TYPE_NUMBER : Z;
  zFreeObject : VM -> Z -> VM;
  zOtherToF64 : VM -> Value -> Z;
  zEvalAddFallback : VM -> Value -> Value -> VM * ValueResult;
  zEvalSubFallback : VM -> Value -> Value -> VM * ValueResult;
  zAllocList : VM -> Z -> Z -> VM * ValueResult;
  zCallObjSym : VM -> Z -> Z -> Value -> Z -> Z -> Z -> Z -> Z -> VM * CallObjSymResult;
  zCallSym : VM -> Z -> Z -> Z -> Z -> Z -> Z -> VM * CallSymResult;
  callFuncPtr : Z -> VM -> Z -> Z -> VM * Value;
  callMethodPtr : Z -> VM -> Value -> Z -> Z -> VM * Value;
  zEnd : VM -> Z -> VM;
  f64_add : Z -> Z -> Z;
  f64_sub : Z -> Z -> Z
}.

(** How one instruction ends.

    Modelled from the spec: [zFatal] is implemented outside vm.c; a fatal
    condition aborts the process through the host's fatal hook, so
    nothing after the call runs. *)
Inductive Outcome : Type :=
| Next (m : Machine)                    (* NEXT() *)
| Return (r : ResultCode) (m : Machine) (* return r; *)
| Fatal (m : Machine)                   (* zFatal() *)
| Hang (m : Machine)                    (* a loop that never exits *)
| Undefined (m : Machine).              (* no case for the opcode byte *)

(** ** Memory access *)

Definition upd {A : Type} (f : Z -> A) (a : Z) (x : A) : Z -> A :=
  fun b => if b =? a then x else f b.

Definition set_heap (v : VM) (h : Z -> RetainedCommon) : VM :=
  mkVM (curPc v) (curStack v) (stackEndPtr v) (refCounts v) (constPtr v)
       h (stackMem v) (bytecode v).
Definition set_refCounts (v : VM) (n : Z) : VM :=
  mkVM (curPc v) (curStack v) (stackEndPtr v) n (constPtr v)
       (heap v) (stackMem v) (bytecode v).
Definition set_curStack (v : VM) (p : Z) : VM :=
  mkVM (curPc v) p (stackEndPtr v) (refCounts v) (constPtr v)
       (heap v) (stackMem v) (bytecode v).
Definition set_stackMem (v : VM) (s : Z -> Value) : VM :=
  mkVM (curPc v) (curStack v) (stackEndPtr v) (refCounts v) (constPtr v)
       (heap v) s (bytecode v).
Definition set_bytecode (v : VM) (c : Z -> Byte.byte) : VM :=
  mkVM (curPc v) (curStack v) (stackEndPtr v) (refCounts v) (constPtr v)
       (heap v) (stackMem v) c.

Definition set_rc (o : RetainedCommon) (n : Z) : RetainedCommon :=
  mkRetainedCommon (typeId o) n.

(** Byte [i] of a 64-bit slot on a little-endian host. *)
Definition getByte (v : Z) (i : Z) : Z := Z.land (Z.shiftr v (8 * i)) 0xff.
Definition setByte (v : Z) (i : Z) (b : Z) : Z :=
  Z.lor (Z.land v (Z.lnot (Z.shiftl 0xff (8 * i)))) (Z.shiftl (to_u8 b) (8 * i)).

(** [pc[k]], [stack[k]] and the address [stack + k]. *)
Definition pcAt (m : Machine) (k : Z) : Z := u8 (bytecode (vm m) (pc m + k)).
Definition slot (base k : Z) : Z := base + 8 * k.
Definition stackAt (m : Machine) (k : Z) : Value := stackMem (vm m) (slot (stack m) k).

Definition with_vm (m : Machine) (v : VM) : Machine := mkMachine (pc m) (stack m) v.
Definition with_pc (m : Machine) (p : Z) : Machine := mkMachine p (stack m) (vm m).
Definition with_stack (m : Machine) (s : Z) : Machine := mkMachine (pc m) s (vm m).

(** [stack[k] = v] *)
Definition setStack (m : Machine) (k : Z) (v : Value) : Machine :=
  with_vm m (set_stackMem (vm m) (upd (stackMem (vm m)) (slot (stack m) k) v)).
(** [pc[k] = b] *)
Definition setInst (m : Machine) (k : Z) (b : Byte.byte) : Machine :=
  with_vm m (set_bytecode (vm m) (upd (bytecode (vm m)) (pc m + k) b)).
(** [pc += n] *)
Definition advance (m : Machine) (n : Z) : Machine := with_pc m (pc m + n).

Definition READ_U16 (m : Machine) (offset : Z) : Z :=
  Z.lor (pcAt m offset) (Z.shiftl (to_u16 (pcAt m (offset + 1))) 8).
Definition READ_I16 (m : Machine) (offset : Z) : Z := to_i16 (READ_U16 m offset).
Definition READ_U48 (m : Machine) (offset : Z) : Z :=
  Z.lor (pcAt m offset)
 (Z.lor (Z.shiftl (pcAt m (offset + 1)) 8)
 (Z.lor (Z.shiftl (pcAt m (offset + 2)) 16)
 (Z.lor (Z.shiftl (pcAt m (offset + 3)) 24)
 (Z.lor (Z.shiftl (pcAt m (offset + 4)) 32)
        (Z.shiftl (pcAt m (offset + 5)) 40))))).

(** ** The interpreter (vm.c, lines 44-666)

    The build without [DEBUG], where [PRE_NEXT] is empty; what the
    handlers print is not modelled. *)

Section Interp.

Context (host : Host).

Definition release (v : VM) (val : Value) : VM :=
  if VALUE_IS_POINTER val then
    let obj := VALUE_AS_HEAPOBJECT val in
    let v1 := set_heap v (upd (heap v) obj
                (set_rc (heap v obj) (to_u32 (rc (heap v obj) - 1)))) in
    let v2 := if TRACK_GLOBAL_RC host
              then set_refCounts v1 (to_u64 (refCounts v1 - 1)) else v1 in
    if rc (heap v2 obj) =? 0 then zFreeObject host v2 obj else v2
  else v.

Definition retain (v : VM) (val : Value) : VM :=
  if VALUE_IS_POINTER val then
    let obj := VALUE_AS_HEAPOBJECT val in
    let v1 := set_heap v (upd (heap v) obj
                (set_rc (heap v obj) (to_u32 (rc (heap v obj) + 1)))) in
    if TRACK_GLOBAL_RC host
    then set_refCounts v1 (to_u64 (refCounts v1 + 1)) else v1
  else v.

Definition toF64 (v : VM) (val : Value) : Z :=
  if VALUE_IS_NUMBER val then VALUE_AS_NUMBER val else zOtherToF64 host v val.

Definition getPrimitiveTypeId (val : Value) : Z :=
  if VALUE_IS_NUMBER val then TYPE_NUMBER host else VALUE_GET_TAG val.

Definition getTypeId (v : VM) (val : Value) : Z :=
  if VALUE_IS_POINTER val then typeId (heap v (VALUE_AS_HEAPOBJECT val))
  else getPrimitiveTypeId val.

Definition op_ConstOp (m : Machine) : Outcome :=
  Next (advance (setStack m (pcAt m 2) (VALUE_RAW (constPtr (vm m) (pcAt m 1)))) 3).

Definition op_ConstI8 (m : Machine) : Outcome :=
  Next (advance (setStack m (pcAt m 2)
                   (VALUE_NUMBER (F64.of_int (to_i8 (pcAt m 1))))) 3).

Definition op_ConstI8Int (m : Machine) : Outcome :=
  Next (advance (setStack m (pcAt m 2) (VALUE_INTEGER (to_i32 (pcAt m 1)))) 3).

(** [Add] and [Sub] differ in the operation on doubles and in the
    fallback. *)
Definition op_arith (fop : Z -> Z -> Z)
    (fallback : VM -> Value -> Value -> VM * ValueResult) (m : Machine) : Outcome :=
  let left := stackAt m (pcAt m 1) in
  let right := stackAt m (pcAt m 2) in
  if VALUE_BOTH_NUMBERS left right then
    Next (advance (setStack m (pcAt m 3)
            (VALUE_NUMBER (fop (VALUE_AS_NUMBER left) (VALUE_AS_NUMBER right)))) 4)
  else
    let '(v1, res) := fallback (vm m) left right in
    let m1 := with_vm m v1 in
    if ResultCode_eqb (code res) RES_CODE_SUCCESS
    then Next (advance (setStack m1 (pcAt m1 3) (val res)) 4)
    else Return (code res) m1.

Definition op_Add : Machine -> Outcome := op_arith (f64_add host) (zEvalAddFallback host).
Definition op_Sub : Machine -> Outcome := op_arith (f64_sub host) (zEvalSubFallback host).

Definition op_True (m : Machine) : Outcome :=
  Next (advance (setStack m (pcAt m 1) VALUE_TRUE) 2).
Definition op_False (m : Machine) : Outcome :=
  Next (advance (setStack m (pcAt m 1) VALUE_FALSE) 2).
Definition op_None (m : Machine) : Outcome :=
  Next (advance (setStack m (pcAt m 1) VALUE_NONE) 2).

Definition op_Copy (m : Machine) : Outcome :=
  Next (advance (setStack m (pcAt m 2) (stackAt m (pcAt m 1))) 3).

Definition op_CopyReleaseDst (m : Machine) : Outcome :=
  let dst := pcAt m 2 in
  let m1 := with_vm m (release (vm m) (stackAt m dst)) in
  Next (advance (setStack m1 dst (stackAt m1 (pcAt m1 1))) 3).

Definition op_CopyRetainSrc (m : Machine) : Outcome :=
  let val := stackAt m (pcAt m 1) in
  let m1 := with_vm m (retain (vm m) val) in
  Next (advance (setStack m1 (pcAt m1 2) val) 3).

Definition op_List (m : Machine) : Outcome :=
  let startLocal := pcAt m 1 in
  let numElems := pcAt m 2 in
  let '(v1, res) := zAllocList host (vm m) (slot (stack m) startLocal) numElems in
  let m1 := with_vm m v1 in
  if ResultCode_eqb (code res) RES_CODE_SUCCESS
  then Next (advance (setStack m1 (pcAt m1 3) (val res)) 4)
  else Return (code res) m1.

Definition op_JumpNotCond (m : Machine) : Outcome :=
  let jump := to_u16 (READ_U16 m 1) in
  let cond := stackAt m (pcAt m 3) in
  let condVal := if VALUE_IS_BOOLEAN cond then VALUE_AS_BOOLEAN cond
                 else VALUE_ASSUME_NOT_BOOL_TO_BOOL cond in
  if negb condVal then Next (advance m jump) else Next (advance m 4).

Definition op_Jump (m : Machine) : Outcome := Next (advance m (READ_I16 m 1)).

Definition op_Release (m : Machine) : Outcome :=
  Next (advance (with_vm m (release (vm m) (stackAt m (pcAt m 1)))) 2).

Definition op_CallObjSym (m : Machine) : Outcome :=
  let startLocal := pcAt m 1 in
  let numArgs := pcAt m 2 in
  let numRet := pcAt m 3 in
  let symId := pcAt m 4 in
  let recv := stackAt m (startLocal + numArgs + 4 - 1) in
  let typeId := getTypeId (vm m) recv in
  let '(v1, res) := zCallObjSym host (vm m) (pc m) (stack m) recv typeId symId
                      startLocal numArgs numRet in
  if ResultCode_eqb (cos_code res) RES_CODE_SUCCESS
  then Next (mkMachine (cos_pc res) (cos_stack res) v1)
  else Return (cos_code res) (with_vm m v1).

Definition op_CallObjNativeFuncIC (m : Machine) : Outcome :=
  let startLocal := pcAt m 1 in
  let numArgs := pcAt m 2 in
  let recv := stackAt m (startLocal + numArgs + 4 - 1) in
  let typeId := getTypeId (vm m) recv in
  let cachedTypeId := READ_U16 m 12 in
  if typeId =? cachedTypeId then
    let v1 := set_curStack (vm m) (stack m) in
    let fn := READ_U48 m 6 in
    let '(v2, res) := callMethodPtr host fn v1 recv
                        (slot (stack m) (startLocal + 4)) numArgs in
    let m2 := with_vm m v2 in
    let numRet := pcAt m2 3 in
    if numRet =? 1 then Next (advance (setStack m2 startLocal res) 14)
    else if numRet =? 0 then Next (advance m2 14)
    else Fatal m2
  else
    (* Deoptimize. *)
    Next (setInst m 0 byte_CallObjSym).

Definition op_CallSym (m : Machine) : Outcome :=
  let startLocal := pcAt m 1 in
  let numArgs := pcAt m 2 in
  let numRet := pcAt m 3 in
  let symId := pcAt m 4 in
  let '(v1, res) := zCallSym host (vm m) (pc m) (stack m) symId
                      startLocal numArgs numRet in
  Next (mkMachine (cs_pc res) (cs_stack res) v1).

Definition op_CallFuncIC (m : Machine) : Outcome :=
  let startLocal := pcAt m 1 in
  let numLocals := pcAt m 4 in
  if stackEndPtr (vm m) <=? slot (slot (stack m) startLocal) numLocals then
    Fatal m
  else
    let retFramePtr := stack m in
    let m1 := with_stack m (slot (stack m) startLocal) in
    let m2 := setStack m1 1 (setByte (stackAt m1 1) 0 (pcAt m1 3)) in
    let m3 := setStack m2 1 (setByte (stackAt m2 1) 1 0) in
    let m4 := setStack m3 2 (pc m3 + 11) in
    let m5 := setStack m4 3 retFramePtr in
    Next (with_pc m5 (READ_U48 m5 5)).

Definition op_CallNativeFuncIC (m : Machine) : Outcome :=
  let startLocal := pcAt m 1 in
  let numArgs := pcAt m 2 in
  let newStack := slot (stack m) startLocal in
  let v1 := set_curStack (vm m) newStack in
  let fn := READ_U48 m 5 in
  let '(v2, res) := callFuncPtr host fn v1 (slot newStack 4) numArgs in
  let m2 := with_vm m v2 in
  let numRet := pcAt m2 3 in
  if numRet =? 1 then
    Next (advance (with_vm m2 (set_stackMem v2 (upd (stackMem v2) (slot newStack 0) res))) 11)
  else if numRet =? 0 then Next (advance m2 11)
  else Fatal m2.

(** [retFlag] is [byte1 & 0x1 > 0], which C reads as [byte1 & (0x1 > 0)]. *)
Definition op_Ret1 (m : Machine) : Outcome :=
  let reqNumArgs := getByte (stackAt m 1) 0 in
  let retFlag := negb (Z.land (getByte (stackAt m 1) 1) (Z.b2z (0 <? 0x1)) =? 0) in
  if reqNumArgs =? 1 then
    let m1 := mkMachine (stackAt m 2) (stackAt m 3) (vm m) in
    if negb retFlag then Next m1 else Return RES_CODE_SUCCESS m1
  else if reqNumArgs =? 0 then
    let m0 := with_vm m (release (vm m) (stackAt m 0)) in
    let m1 := mkMachine (stackAt m0 2) (stackAt m0 3) (vm m0) in
    if negb retFlag then Next m1 else Return RES_CODE_SUCCESS m1
  else Fatal m.

(** The loop of [SetInitN]: [i] is a [uint8_t] compared with the [int]
    [2 + numLocals].  After 256 rounds [i] has taken every value, so a
    loop that is still running then never exits. *)
Fixpoint setInitLoop (rounds : nat) (m : Machine) (i bound : Z) : option Machine :=
  if i <? bound then
    match rounds with
    | O => None
    | S r => setInitLoop r (setStack m i VALUE_NONE) (to_u8 (i + 1)) bound
    end
  else Some m.

Definition op_SetInitN (m : Machine) : Outcome :=
  let numLocals := pcAt m 1 in
  match setInitLoop 256 m 2 (2 + numLocals) with
  | Some m1 => Next (advance m1 (2 + numLocals))
  | None => Hang m
  end.

Definition op_JumpNotNone (m : Machine) : Outcome :=
  let offset := READ_I16 m 1 in
  if negb (VALUE_IS_NONE (stackAt m (pcAt m 3)))
  then Next (advance m offset) else Next (advance m 4).

(** The sum and the difference are taken on [int32_t].  C leaves their
    overflow undefined; the model takes the two's-complement result. *)
Definition op_AddInt (m : Machine) : Outcome :=
  let left := stackAt m (pcAt m 1) in
  let right := stackAt m (pcAt m 2) in
  Next (advance (setStack m (pcAt m 3)
          (VALUE_INTEGER (to_i32 (VALUE_AS_INTEGER left + VALUE_AS_INTEGER right)))) 4).

Definition op_SubInt (m : Machine) : Outcome :=
  let left := stackAt m (pcAt m 1) in
  let right := stackAt m (pcAt m 2) in
  Next (advance (setStack m (pcAt m 3)
          (VALUE_INTEGER (to_i32 (VALUE_AS_INTEGER left - VALUE_AS_INTEGER right)))) 4).

Definition op_LessInt (m : Machine) : Outcome :=
  let left := stackAt m (pcAt m 1) in
  let right := stackAt m (pcAt m 2) in
  Next (advance (setStack m (pcAt m 3)
          (VALUE_BOOLEAN (VALUE_AS_INTEGER left <? VALUE_AS_INTEGER right))) 4).

Definition op_ForRangeInit (m : Machine) : Outcome :=
  let start := toF64 (vm m) (stackAt m (pcAt m 1)) in
  let end_ := toF64 (vm m) (stackAt m (pcAt m 2)) in
  let m1 := setStack m (pcAt m 2) (VALUE_NUMBER end_) in
  let step0 := toF64 (vm m1) (stackAt m1 (pcAt m1 3)) in
  let step := if F64.ltb step0 F64.zero then F64.neg step0 else step0 in
  let m2 := setStack m1 (pcAt m1 3) (VALUE_NUMBER step) in
  if F64.eqb start end_ then
    Next (advance m2 (READ_U16 m2 6 + 7))
  else
    let m3 := setStack m2 (pcAt m2 4) (VALUE_NUMBER start) in
    let m4 := setStack m3 (pcAt m3 5) (VALUE_NUMBER start) in
    let offset := to_u16 (READ_U16 m4 6) in
    let m5 := if F64.ltb start end_ then setInst m4 offset byte_ForRange
              else setInst m4 offset byte_ForRangeReverse in
    Next (advance m5 8).

Definition op_ForRange (m : Machine) : Outcome :=
  let counter := f64_add host (VALUE_AS_NUMBER (stackAt m (pcAt m 1)))
                              (VALUE_AS_NUMBER (stackAt m (pcAt m 2))) in
  if F64.ltb counter (VALUE_AS_NUMBER (stackAt m (pcAt m 3))) then
    let m1 := setStack m (pcAt m 1) (VALUE_NUMBER counter) in
    let m2 := setStack m1 (pcAt m1 4) (VALUE_NUMBER counter) in
    Next (advance m2 (- READ_U16 m2 5))
  else Next (advance m 7).

Definition op_End (m : Machine) : Outcome :=
  Return RES_CODE_SUCCESS (with_vm m (zEnd host (vm m) (pc m))).

(** The bodies of the [switch]; an opcode without one prints
    "Unsupported" and calls [zFatal]. *)
Definition execOp (op : OpCode) (m : Machine) : Outcome :=
  match op with
  | CodeConstOp => op_ConstOp m
  | CodeConstI8 => op_ConstI8 m
  | CodeConstI8Int => op_ConstI8Int m
  | CodeAdd => op_Add m
  | CodeSub => op_Sub m
  | CodeTrue => op_True m
  | CodeFalse => op_False m
  | CodeNone => op_None m
  | CodeCopy => op_Copy m
  | CodeCopyReleaseDst => op_CopyReleaseDst m
  | CodeCopyRetainSrc => op_CopyRetainSrc m
  | CodeList => op_List m
  | CodeJumpNotCond => op_JumpNotCond m
  | CodeJump => op_Jump m
  | CodeRelease => op_Release m
  | CodeCallObjSym => op_CallObjSym m
  | CodeCallObjNativeFuncIC => op_CallObjNativeFuncIC m
  | CodeCallSym => op_CallSym m
  | CodeCallFuncIC => op_CallFuncIC m
  | CodeCallNativeFuncIC => op_CallNativeFuncIC m
  | CodeRet1 => op_Ret1 m
  | CodeSetInitN => op_SetInitN m
  | CodeJumpNotNone => op_JumpNotNone m
  | CodeAddInt => op_AddInt m
  | CodeSubInt => op_SubInt m
  | CodeLessInt => op_LessInt m
  | CodeForRangeInit => op_ForRangeInit m
  | CodeForRange => op_ForRange m
  | CodeEnd => op_End m
  | _ => Fatal m
  end.

(** One round of the dispatch: [switch ((OpCode)*pc)]. *)
Definition step (m : Machine) : Outcome :=
  match decodeOp (bytecode (vm m) (pc m)) with
  | Some op => execOp op m
  | None => Undefined m
  end.

(** The dispatch loop, for at most [fuel] instructions; [Next m] says
    that it is still running, at [m]. *)
Fixpoint dispatch (fuel : nat) (m : Machine) : Outcome :=
  match fuel with
  | O => Next m
  | S f =>
      match step m with
      | Next m1 => dispatch f m1
      | o => o
      end
  end.

Definition execBytecode (fuel : nat) (v : VM) : Outcome :=
  dispatch fuel (mkMachine (curPc v) (curStack v) v).

End Interp.

(** The upper half of a word, which is all a masked test reads. *)
Definition hi32 (v : Z) : Z := Z.shiftr v 32.

(** ** Concrete machines

    A host and a few programs on which the interpreter is evaluated.
    The code sits at address 1000 and the stack at address 2000. *)

Module Demo.

Definition NULL_ID : Z := 0xffffffff.

(** Freeing poisons the header; the native method answers the integer 5;
    doubles are added and subtracted as IEEE-754 has it; no program
    below reaches the other entries, which are left inert. *)
Definition host : Host :=
  {| TRACK_GLOBAL_RC := true;
     TYPE_NUMBER := 8;
     zFreeObject := fun v obj => set_heap v (upd (heap v) obj (mkRetainedCommon NULL_ID 0));
     zOtherToF64 := fun _ val => F64.of_int (VALUE_AS_INTEGER val);
     zEvalAddFallback := fun v _ _ => (v, mkValueResult VALUE_NONE RES_CODE_PANIC);
     zEvalSubFallback := fun v _ _ => (v, mkValueResult VALUE_NONE RES_CODE_PANIC);
     zAllocList := fun v _ _ => (v, mkValueResult VALUE_NONE RES_CODE_PANIC);
     zCallObjSym := fun v p st _ _ _ _ _ _ => (v, mkCallObjSymResult p st RES_CODE_PANIC);
     zCallSym := fun v p st _ _ _ _ => (v, mkCallSymResult p st);
     callFuncPtr := fun _ v _ _ => (v, VALUE_NONE);
     callMethodPtr := fun _ v _ _ _ => (v, VALUE_INTEGER 5);
     zEnd := fun v _ => v;
     f64_add := Binary64.add;
     f64_sub := Binary64.sub |}.

Definition codeAt (base : Z) (bytes : list Byte.byte) : Z -> Byte.byte :=
  fun a => if a <? base then Byte.x00 else nth (Z.to_nat (a - base)) bytes Byte.x00.

Definition slotsAt (base : Z) (vals : list Value) : Z -> Value :=
  fun a => if a <? base then 0 else nth (Z.to_nat ((a - base) / 8)) vals 0.

Definition CODE : Z := 1000.
Definition STACK : Z := 2000.

(** A machine about to run [bytes] on a stack holding [vals], with room
    for [room] slots, with the object headers [h] and one reference
    counted globally. *)
Definition machine (bytes : list Byte.byte) (vals : list Value) (room : Z)
    (h : Z -> RetainedCommon) : Machine :=
  mkMachine CODE STACK
    (mkVM CODE STACK (slot STACK room) 1 (fun _ => 0) h
          (slotsAt STACK vals) (codeAt CODE bytes)).

Definition noHeap : Z -> RetainedCommon := fun _ => mkRetainedCommon 0 0.

(** [JumpNotCond 10, r0] *)
Definition jumpNotCond (cond : Value) : Machine :=
  machine [Byte.x14; Byte.x0a; Byte.x00; Byte.x00] [cond] 16 noHeap.

(** [ConstI8Int 0x80, r0] and [ConstI8 0x80, r0] *)
Definition constI8Int : Machine :=
  machine [Byte.x02; Byte.x80; Byte.x00] [0] 16 noHeap.
Definition constI8 : Machine :=
  machine [Byte.x01; Byte.x80; Byte.x00] [0] 16 noHeap.

(** [AddInt r0, r1, r2] and [SubInt r0, r1, r2] *)
Definition addInt (a b : Value) : Machine :=
  machine [Byte.x51; Byte.x00; Byte.x01; Byte.x02] [a; b; 0] 16 noHeap.
Definition subInt (a b : Value) : Machine :=
  machine [Byte.x52; Byte.x00; Byte.x01; Byte.x02] [a; b; 0] 16 noHeap.

(** An object at address 0x10000 with type id 30 and [n] references. *)
Definition OBJ : Z := 0x10000.
Definition objRef : Value := Z.lor POINTER_MASK OBJ.
Definition oneObject (n : Z) : Z -> RetainedCommon :=
  upd noHeap OBJ (mkRetainedCommon 30 n).

(** [Ret1] in a frame that holds [v] in slot 0, was asked for [count]
    values, has the flags byte [flags], and returns to pc 1234 and the
    frame at 1968. *)
Definition ret1 (v : Value) (count flags : Z) (h : Z -> RetainedCommon) : Machine :=
  machine [Byte.x1f] [v; count + 256 * flags; 1234; 1968] 16 h.

(** [CallFuncIC startLocal=5 numArgs=0 numRet=1 numLocals=4] to the
    function at address 0x4d2, on a stack of [room] slots. *)
Definition callFuncIC (room : Z) : Machine :=
  machine [Byte.x1d; Byte.x05; Byte.x00; Byte.x01; Byte.x04;
           Byte.xd2; Byte.x04; Byte.x00; Byte.x00; Byte.x00; Byte.x00]
          [0; 0; 0; 0; 0; 0; 0x1122334455667788; 0; 0] room noHeap.

(** [CallObjNativeFuncIC startLocal=1 numArgs=0 numRet=1] with the
    cached type id 30 and the method at address 0x4d2; the receiver is
    in slot [1 + 0 + 3]. *)
Definition callObjNativeFuncIC (recv : Value) (numRet : Byte.byte) : Machine :=
  machine [Byte.x1a; Byte.x01; Byte.x00; numRet; Byte.x07; Byte.x00;
           Byte.xd2; Byte.x04; Byte.x00; Byte.x00; Byte.x00; Byte.x00;
           Byte.x1e; Byte.x00]
          [0; 0; 0; 0; recv] 16 (oneObject 1).

(** [SetInitN n] followed by [n] operand bytes that the handler skips. *)
Definition setInitN (n : Byte.byte) : Machine :=
  machine [Byte.x36; n] [1; 2; 3; 4; 5] 300 noHeap.

(** [ForRangeInit r0, r1, r2, r3, r4, 10]: start, end and step are the
    doubles [a], [b] and [c]. *)
Definition forRangeInit (a b c : Value) : Machine :=
  machine [Byte.x54; Byte.x00; Byte.x01; Byte.x02; Byte.x03; Byte.x04;
           Byte.x0a; Byte.x00; Byte.x00; Byte.x00; Byte.x00; Byte.x00]
          [a; b; c; 0; 0] 16 noHeap.

(** The doubles 0.0, 1.0 and 5.0. *)
Definition d0 : Value := 0.
Definition d1 : Value := 0x3ff0000000000000.
Definition d5 : Value := 0x4014000000000000.


(** [Add r0, r1, r2] and [Sub r0, r1, r2] *)
Definition add (a b : Value) : Machine :=
  machine [Byte.x03; Byte.x00; Byte.x01; Byte.x02] [a; b; 0] 16 noHeap.
Definition sub (a b : Value) : Machine :=
  machine [Byte.x04; Byte.x00; Byte.x01; Byte.x02] [a; b; 0] 16 noHeap.

(** A call of a function with two locals.  At 1000,
    [CallFuncIC startLocal=5 numArgs=0 numRet=1 numLocals=6] to the
    function at address 0x3f4 = 1012; at 1011, where the call returns
    to, [End]; at 1012 the function: [SetInitN 2, r4, r5], then [Ret1]
    at 1016. *)
Definition callWithLocals : Machine :=
  machine [Byte.x1d; Byte.x05; Byte.x00; Byte.x01; Byte.x06;
           Byte.xf4; Byte.x03; Byte.x00; Byte.x00; Byte.x00; Byte.x00;
           Byte.x5d;
           Byte.x36; Byte.x02; Byte.x04; Byte.x05;
           Byte.x1f]
          [0; 0; 0; 0; 0; 0; 0; 0; 0; 0; 0; 0] 16 noHeap.

End Demo.

(** ** Type ids of the embedding interface (cyber.h, lines 24-54) *)



(** ** A whole program

    [ConstI8Int a, r0; ConstI8Int b, r1; AddInt r0, r1, r2; End], at
    address 1000 with its frame at address 2000. *)

Module Prog.

Definition sum (a b : Byte.byte) : list Byte.byte :=
  [Byte.x02; a; Byte.x00;
   Byte.x02; b; Byte.x01;
   Byte.x51; Byte.x00; Byte.x01; Byte.x02;
   Byte.x5d].

Definition sumVM (a b : Byte.byte) : VM :=
  vm (Demo.machine (sum a b) [0; 0; 0] 16 Demo.noHeap).

End Prog.

(** * Properties *)

(** ** Integer conversions and masks *)

Lemma to_i32_id (n : Z) : is_i32 n -> to_i32 n = n.
Proof.
  unfold is_i32, to_i32; intros H.
  rewrite Z.mod_small by lia. lia.
Qed.

Lemma to_i32_range (n : Z) : is_i32 (to_i32 n).
Proof.
  unfold is_i32, to_i32.
  pose proof (Z.mod_pos_bound (n + 2 ^ 31) (2 ^ 32) ltac:(lia)). lia.
Qed.

Lemma to_i32_to_u32 (n : Z) : to_i32 (to_u32 n) = to_i32 n.
Proof.
  unfold to_i32, to_u32. now rewrite Zplus_mod_idemp_l.
Qed.

Lemma to_u32_to_i32 (n : Z) : to_u32 (to_i32 n) = to_u32 n.
Proof.
  unfold to_u32, to_i32. rewrite Zminus_mod_idemp_l. f_equal. lia.
Qed.

Lemma to_u32_add_to_i32 (a b : Z) :
  to_u32 (to_i32 a + to_i32 b) = to_u32 (a + b).
Proof.
  unfold to_u32.
  rewrite (Z.add_mod (to_i32 a) (to_i32 b)), (Z.add_mod a b) by lia.
  change (to_u32 (to_u32 (to_i32 a) + to_u32 (to_i32 b)) = to_u32 (to_u32 a + to_u32 b)).
  now rewrite !to_u32_to_i32.
Qed.

Lemma to_u32_sub_to_i32 (a b : Z) :
  to_u32 (to_i32 a - to_i32 b) = to_u32 (a - b).
Proof.
  unfold to_u32.
  rewrite (Zminus_mod (to_i32 a) (to_i32 b)), (Zminus_mod a b).
  change (to_u32 (to_u32 (to_i32 a) - to_u32 (to_i32 b)) = to_u32 (to_u32 a - to_u32 b)).
  now rewrite !to_u32_to_i32.
Qed.

Lemma to_u64_low32 (n : Z) : to_u32 (to_u64 n) = to_u32 n.
Proof.
  unfold to_u32, to_u64.
  apply Z.mod_mod_divide.
  exists (2 ^ 32). reflexivity.
Qed.

(** The upper half of the sign-extension of an [int32_t]. *)
Lemma to_u64_high32_neg (n : Z) :
  - 2 ^ 31 <= n < 0 -> Z.shiftr (to_u64 n) 32 = 0xffffffff.
Proof.
  intros H. unfold to_u64.
  rewrite Z.shiftr_div_pow2 by lia.
  rewrite <- (Z_mod_plus_full n 1 (2 ^ 64)).
  rewrite Z.mod_small by lia.
  symmetry. apply Z.div_unique with (r := n + 2 ^ 32); lia.
Qed.

Lemma to_u64_high32_nonneg (n : Z) :
  0 <= n < 2 ^ 31 -> Z.shiftr (to_u64 n) 32 = 0.
Proof.
  intros H. unfold to_u64.
  rewrite Z.mod_small by lia.
  rewrite Z.shiftr_div_pow2 by lia.
  apply Z.div_small. lia.
Qed.

(** Every mask of the encoding lies in the upper half of the word, so a
    masked test only reads [v >> 32]. *)
Lemma land_shiftl_mask (v c k : Z) :
  0 <= k -> Z.land v (Z.shiftl c k) = Z.shiftl (Z.land (Z.shiftr v k) c) k.
Proof.
  intros Hk. apply Z.bits_inj'. intros i Hi.
  rewrite Z.land_spec.
  destruct (Z.lt_ge_cases i k) as [Hlt | Hge].
  - rewrite !Z.shiftl_spec_low by assumption. apply andb_false_r.
  - rewrite !Z.shiftl_spec by assumption.
    rewrite Z.land_spec, Z.shiftr_spec by lia.
    now replace (i - k + k) with i by lia.
Qed.

Lemma masked_test_hi32 (v M c : Z) :
  (Z.land v (Z.shiftl M 32) =? Z.shiftl c 32) = (Z.land (hi32 v) M =? c).
Proof.
  unfold hi32. rewrite land_shiftl_mask by lia.
  rewrite !Z.shiftl_mul_pow2 by lia.
  destruct (Z.eqb_spec (Z.land (Z.shiftr v 32) M) c) as [E | E].
  - rewrite E. apply Z.eqb_refl.
  - apply Z.eqb_neq. lia.
Qed.

Lemma VALUE_IS_POINTER_hi32 (v : Value) :
  VALUE_IS_POINTER v = (Z.land (hi32 v) 0xfffc0000 =? 0xfffc0000).
Proof. exact (masked_test_hi32 v 0xfffc0000 0xfffc0000). Qed.

Lemma VALUE_IS_INTEGER_hi32 (v : Value) :
  VALUE_IS_INTEGER v = (Z.land (hi32 v) 0xfffc0007 =? 0x7ffc0007).
Proof. exact (masked_test_hi32 v 0xfffc0007 0x7ffc0007). Qed.

Lemma VALUE_IS_BOOLEAN_hi32 (v : Value) :
  VALUE_IS_BOOLEAN v = (Z.land (hi32 v) 0xfffc0007 =? 0x7ffc0001).
Proof. exact (masked_test_hi32 v 0xfffc0007 0x7ffc0001). Qed.

Lemma VALUE_IS_ERROR_hi32 (v : Value) :
  VALUE_IS_ERROR v = (Z.land (hi32 v) 0xfffc0007 =? 0x7ffc0002).
Proof. exact (masked_test_hi32 v 0xfffc0007 0x7ffc0002). Qed.

Lemma VALUE_IS_NUMBER_hi32 (v : Value) :
  VALUE_IS_NUMBER v = negb (Z.land (hi32 v) 0x7ffc0000 =? 0x7ffc0000).
Proof.
  unfold VALUE_IS_NUMBER. f_equal.
  exact (masked_test_hi32 v 0x7ffc0000 0x7ffc0000).
Qed.

Lemma VALUE_GET_TAG_hi32 (v : Value) : VALUE_GET_TAG v = Z.land (hi32 v) 7.
Proof.
  unfold VALUE_GET_TAG, to_u32, hi32.
  rewrite <- Z.land_ones by lia.
  now rewrite <- Z.land_assoc.
Qed.

(** ** The kinds of value exclude one another

    Each test fixes some of three fields of the upper half: the thirteen
    NaN bits, the sign bit and the tag. *)

Lemma tagged_kind_fields (v : Value) (c : Z) :
  Z.land (hi32 v) 0xfffc0007 = c ->
  Z.land (hi32 v) 0x7ffc0000 = Z.land c 0x7ffc0000 /\
  Z.land (hi32 v) 0x80000000 = Z.land c 0x80000000 /\
  Z.land (hi32 v) 7 = Z.land c 7.
Proof.
  intros E. repeat split.
  - rewrite <- E, <- Z.land_assoc. reflexivity.
  - rewrite <- E, <- Z.land_assoc. reflexivity.
  - rewrite <- E, <- Z.land_assoc. reflexivity.
Qed.

Lemma pointer_kind_fields (v : Value) (c : Z) :
  Z.land (hi32 v) 0xfffc0000 = c ->
  Z.land (hi32 v) 0x7ffc0000 = Z.land c 0x7ffc0000 /\
  Z.land (hi32 v) 0x80000000 = Z.land c 0x80000000.
Proof.
  intros E. split.
  - rewrite <- E, <- Z.land_assoc. reflexivity.
  - rewrite <- E, <- Z.land_assoc. reflexivity.
Qed.

(** At most one of the seven tests holds of a value. *)
Lemma value_kinds_exclusive (v : Value) :
  (Nat.b2n (VALUE_IS_NUMBER v) + Nat.b2n (VALUE_IS_NONE v)
   + Nat.b2n (VALUE_IS_BOOLEAN v) + Nat.b2n (VALUE_IS_INTEGER v)
   + Nat.b2n (VALUE_IS_ERROR v) + Nat.b2n (VALUE_IS_POINTER v)
   + Nat.b2n (VALUE_IS_OTHER_PRIMITIVE v) <= 1)%nat.
Proof.
  assert (Hnone : VALUE_IS_NONE v = true ->
                  Z.land (hi32 v) 0x7ffc0000 = 0x7ffc0000 /\
                  Z.land (hi32 v) 0x80000000 = 0 /\ Z.land (hi32 v) 7 = 0).
  { unfold VALUE_IS_NONE. intros E. apply Z.eqb_eq in E. subst v.
    repeat split. }
  assert (Hother : VALUE_IS_OTHER_PRIMITIVE v = true ->
                   Z.land (hi32 v) 0x7ffc0000 = 0x7ffc0000 /\
                   Z.land (hi32 v) 0x80000000 = 0 /\ 3 <= Z.land (hi32 v) 7 <= 6).
  { unfold VALUE_IS_OTHER_PRIMITIVE. rewrite VALUE_GET_TAG_hi32.
    intros E. apply andb_true_iff in E as [E E3]. apply andb_true_iff in E as [E E2].
    change (Z.land v POINTER_MASK =? TAGGED_VALUE_MASK)
      with (Z.land v (Z.shiftl 0xfffc0000 32) =? Z.shiftl 0x7ffc0000 32) in E.
    rewrite masked_test_hi32 in E. apply Z.eqb_eq in E.
    destruct (pointer_kind_fields v _ E) as [Hn Hs].
    split; [exact Hn | ]. split; [exact Hs | ].
    apply Z.leb_le in E2, E3. lia. }
  revert Hnone Hother.
  rewrite VALUE_IS_NUMBER_hi32, VALUE_IS_BOOLEAN_hi32, VALUE_IS_INTEGER_hi32,
          VALUE_IS_ERROR_hi32, VALUE_IS_POINTER_hi32.
  destruct (Z.eqb_spec (Z.land (hi32 v) 0x7ffc0000) 0x7ffc0000) as [Hn | Hn];
  destruct (Z.eqb_spec (Z.land (hi32 v) 0xfffc0007) 0x7ffc0001) as [Hb | Hb];
  destruct (Z.eqb_spec (Z.land (hi32 v) 0xfffc0007) 0x7ffc0007) as [Hi | Hi];
  destruct (Z.eqb_spec (Z.land (hi32 v) 0xfffc0007) 0x7ffc0002) as [He | He];
  destruct (Z.eqb_spec (Z.land (hi32 v) 0xfffc0000) 0xfffc0000) as [Hp | Hp];
  destruct (VALUE_IS_NONE v); destruct (VALUE_IS_OTHER_PRIMITIVE v);
  intros Hnone Hother; cbn [negb Nat.b2n Nat.add]; try lia; exfalso;
  try (destruct (Hnone eq_refl) as (Hn1 & Hn2 & Hn3));
  try (destruct (Hother eq_refl) as (Ho1 & Ho2 & Ho3));
  try (destruct (tagged_kind_fields v _ Hb) as (Hb1 & Hb2 & Hb3));
  try (destruct (tagged_kind_fields v _ Hi) as (Hi1 & Hi2 & Hi3));
  try (destruct (tagged_kind_fields v _ He) as (He1 & He2 & He3));
  try (destruct (pointer_kind_fields v _ Hp) as (Hp1 & Hp2));
  repeat match goal with
         | H : _ = Z.land ?a ?b |- _ =>
             let r := eval vm_compute in (Z.land a b) in
             change (Z.land a b) with r in H
         end;
  lia.
Qed.

Lemma hi32_VALUE_INTEGER (n : Z) :
  hi32 (VALUE_INTEGER n) = Z.lor 0x7ffc0007 (hi32 (to_u64 n)).
Proof.
  unfold hi32, VALUE_INTEGER. now rewrite Z.shiftr_lor.
Qed.

(** The payload survives the constructor whatever the sign. *)
Lemma VALUE_INTEGER_payload (n : Z) :
  Z.land (VALUE_INTEGER n) 0xffffffff = to_u32 n.
Proof.
  unfold VALUE_INTEGER.
  rewrite Z.land_lor_distr_l.
  change (Z.land INTEGER_MASK 0xffffffff) with 0.
  rewrite Z.lor_0_l.
  change 0xffffffff with (Z.ones 32).
  rewrite Z.land_ones by lia.
  apply to_u64_low32.
Qed.

Lemma VALUE_AS_INTEGER_VALUE_INTEGER (n : Z) :
  is_i32 n -> VALUE_AS_INTEGER (VALUE_INTEGER n) = n.
Proof.
  intros H. unfold VALUE_AS_INTEGER.
  rewrite VALUE_INTEGER_payload, to_i32_to_u32.
  now apply to_i32_id.
Qed.

Lemma VALUE_INTEGER_nonneg (n : Z) :
  0 <= n < 2 ^ 31 ->
  VALUE_IS_INTEGER (VALUE_INTEGER n) = true /\
  VALUE_IS_POINTER (VALUE_INTEGER n) = false.
Proof.
  intros H. split.
  - rewrite VALUE_IS_INTEGER_hi32, hi32_VALUE_INTEGER.
    unfold hi32. rewrite to_u64_high32_nonneg by assumption. reflexivity.
  - rewrite VALUE_IS_POINTER_hi32, hi32_VALUE_INTEGER.
    unfold hi32. rewrite to_u64_high32_nonneg by assumption. reflexivity.
Qed.

Lemma VALUE_INTEGER_negative_is_pointer_aux (n : Z) :
  - 2 ^ 31 <= n < 0 ->
  VALUE_IS_POINTER (VALUE_INTEGER n) = true /\
  VALUE_IS_INTEGER (VALUE_INTEGER n) = false /\
  VALUE_AS_INTEGER (VALUE_INTEGER n) = n.
Proof.
  intros H. split; [ | split ].
  - rewrite VALUE_IS_POINTER_hi32, hi32_VALUE_INTEGER.
    unfold hi32. rewrite to_u64_high32_neg by assumption. reflexivity.
  - rewrite VALUE_IS_INTEGER_hi32, hi32_VALUE_INTEGER.
    unfold hi32. rewrite to_u64_high32_neg by assumption. reflexivity.
  - apply VALUE_AS_INTEGER_VALUE_INTEGER. unfold is_i32. lia.
Qed.

(** C1: the partition of values into kinds requires the integer
    constructor to produce an integer that is not a pointer, for every
    [int32_t] including the negative ones.  [VALUE_INTEGER] ors the
    sign-extended operand into the mask, so on every negative [n] the
    sign bit and all tag bits are set: the value passes
    [VALUE_IS_POINTER] and fails the integer test, although its payload
    still reads back as [n]. *)
Theorem VALUE_INTEGER_negative_is_pointer (n : Z) :
  - 2 ^ 31 <= n < 0 ->
  VALUE_IS_POINTER (VALUE_INTEGER n) = true /\
  VALUE_IS_INTEGER (VALUE_INTEGER n) = false /\
  VALUE_AS_INTEGER (VALUE_INTEGER n) = n.
Proof. exact (VALUE_INTEGER_negative_is_pointer_aux n). Qed.

Lemma VALUE_INTEGER_negative_is_pointer_witness :
  - 2 ^ 31 <= -1 < 0 /\
  VALUE_IS_POINTER (VALUE_INTEGER (-1)) = true /\
  VALUE_IS_INTEGER (VALUE_INTEGER (-1)) = false /\
  VALUE_AS_INTEGER (VALUE_INTEGER (-1)) = -1.
Proof.
  split; [lia | apply (VALUE_INTEGER_negative_is_pointer (-1)); lia].
Defined.

Example ex_VALUE_INTEGER_5 : VALUE_INTEGER 5 = 0x7ffc000700000005.
Proof. reflexivity. Qed.

Example ex_VALUE_INTEGER_m1 : VALUE_INTEGER (-1) = 0xffffffffffffffff.
Proof. reflexivity. Qed.

Example ex_of_int_1 : F64.of_int 1 = Demo.d1.
Proof. reflexivity. Qed.

Example ex_of_int_5 : F64.of_int 5 = Demo.d5.
Proof. reflexivity. Qed.

Example ex_of_int_m128 : F64.of_int (-128) = 0xc060000000000000.
Proof. reflexivity. Qed.

(** 0.0 + 1.0 = 1.0, 1.0 + 5.0 = 6.0, 1.0 - 5.0 = -4.0 and
    0.1 + 0.2 = 0.30000000000000004. *)
Example ex_Binary64_sums :
  Binary64.add Demo.d0 Demo.d1 = Demo.d1 /\
  Binary64.add Demo.d1 Demo.d5 = 0x4018000000000000 /\
  Binary64.sub Demo.d1 Demo.d5 = 0xc010000000000000 /\
  Binary64.add 0x3fb999999999999a 0x3fc999999999999a = 0x3fd3333333333334.
Proof. vm_compute. repeat split. Qed.

(** Rounding to even at 2^53, overflow to infinity, the smallest
    subnormal, and a difference that is exactly zero. *)
Example ex_Binary64_edges :
  Binary64.add 0x4340000000000000 Demo.d1 = 0x4340000000000000 /\
  Binary64.add 0x7fefffffffffffff 0x7fefffffffffffff = F64.INF_BITS /\
  Binary64.sub 0x0000000000000002 0x0000000000000001 = 0x0000000000000001 /\
  Binary64.sub Demo.d5 Demo.d5 = 0 /\
  Binary64.add (F64.neg 0) (F64.neg 0) = SIGN_MASK.
Proof. vm_compute. repeat split. Qed.

(** Infinity minus infinity is a NaN, and a NaN operand comes back
    quiet. *)
Example ex_Binary64_nans :
  Binary64.sub F64.INF_BITS F64.INF_BITS = Binary64.DEFAULT_NAN /\
  F64.is_nan (Binary64.sub F64.INF_BITS F64.INF_BITS) = true /\
  Binary64.add 0x7ff0000000000001 Demo.d1 = 0x7ff8000000000001 /\
  Binary64.add Demo.d1 0xfff4000000000123 = 0xfffc000000000123.
Proof. vm_compute. repeat split. Qed.

(** [Add] and [Sub] on the doubles 1.0 and 5.0 store 6.0 and -4.0. *)
Example ex_Add_Sub_doubles :
  execOp Demo.host CodeAdd (Demo.add Demo.d1 Demo.d5) =
  Next (advance (setStack (Demo.add Demo.d1 Demo.d5) 2 0x4018000000000000) 4) /\
  execOp Demo.host CodeSub (Demo.sub Demo.d1 Demo.d5) =
  Next (advance (setStack (Demo.sub Demo.d1 Demo.d5) 2 0xc010000000000000) 4).
Proof. split; reflexivity. Qed.

Example ex_f64_order :
  F64.ltb Demo.d1 Demo.d5 = true /\ F64.ltb (F64.neg Demo.d1) F64.zero = true /\
  F64.eqb (F64.neg F64.zero) F64.zero = true /\
  F64.eqb 0x7ff8000000000000 0x7ff8000000000000 = false.
Proof. repeat split. Qed.

Example ex_decode_written :
  decodeOp byte_CallObjSym = Some CodeCallObjSym /\
  decodeOp byte_ForRange = Some CodeForRange /\
  decodeOp byte_ForRangeReverse = Some CodeForRangeReverse.
Proof. repeat split. Qed.

Example ex_jumpTable_length : length jumpTable = 94%nat.
Proof. reflexivity. Qed.

(** ** Memory and byte access *)

Lemma u8_range (b : Byte.byte) : 0 <= u8 b < 256.
Proof.
  unfold u8. pose proof (Byte.to_N_bounded b). lia.
Qed.

Lemma pcAt_range (m : Machine) (k : Z) : 0 <= pcAt m k < 256.
Proof. apply u8_range. Qed.

Lemma to_u8_id (n : Z) : 0 <= n < 256 -> to_u8 n = n.
Proof. intros H. unfold to_u8. apply Z.mod_small. lia. Qed.

Lemma to_u16_id (n : Z) : 0 <= n < 65536 -> to_u16 n = n.
Proof. intros H. unfold to_u16. apply Z.mod_small. lia. Qed.

Lemma upd_same {A : Type} (f : Z -> A) (a : Z) (x : A) : upd f a x a = x.
Proof. unfold upd. now rewrite Z.eqb_refl. Qed.

Lemma upd_other {A : Type} (f : Z -> A) (a b : Z) (x : A) :
  b <> a -> upd f a x b = f b.
Proof. intros H. unfold upd. now rewrite (proj2 (Z.eqb_neq b a) H). Qed.

Lemma slot_inj (base j k : Z) : slot base j = slot base k -> j = k.
Proof. unfold slot. lia. Qed.

Lemma testbit_0xff (k : Z) : 0 <= k -> Z.testbit 0xff k = (k <? 8).
Proof.
  intros H. change 0xff with (Z.ones 8). now apply Z.testbit_ones_nonneg.
Qed.

Lemma getByte_bits (v i k : Z) :
  0 <= i -> 0 <= k ->
  Z.testbit (getByte v i) k = Z.testbit v (k + 8 * i) && (k <? 8).
Proof.
  intros Hi Hk. unfold getByte.
  rewrite Z.land_spec, Z.shiftr_spec, testbit_0xff by assumption.
  reflexivity.
Qed.

Lemma setByte_bits (v i b k : Z) :
  0 <= i -> 0 <= k ->
  Z.testbit (setByte v i b) k =
  if (8 * i <=? k) && (k <? 8 * i + 8) then Z.testbit b (k - 8 * i)
  else Z.testbit v k.
Proof.
  intros Hi Hk. unfold setByte, to_u8.
  rewrite Z.lor_spec, Z.land_spec, Z.lnot_spec by assumption.
  destruct (Z.leb_spec (8 * i) k) as [Hle | Hlt]; cbn [andb].
  - rewrite !Z.shiftl_spec by assumption.
    rewrite testbit_0xff by lia.
    destruct (Z.ltb_spec k (8 * i + 8)) as [Hin | Hout].
    + replace (k - 8 * i <? 8) with true by (symmetry; apply Z.ltb_lt; lia).
      cbn [negb]. rewrite andb_false_r. cbn [orb].
      apply Z.mod_pow2_bits_low. lia.
    + replace (k - 8 * i <? 8) with false by (symmetry; apply Z.ltb_ge; lia).
      cbn [negb]. rewrite andb_true_r.
      rewrite Z.mod_pow2_bits_high by lia. apply orb_false_r.
  - rewrite !Z.shiftl_spec_low by assumption.
    cbn [negb]. rewrite andb_true_r. apply orb_false_r.
Qed.

Lemma getByte_setByte_same (v i b : Z) :
  0 <= i -> 0 <= b < 256 -> getByte (setByte v i b) i = b.
Proof.
  intros Hi Hb. apply Z.bits_inj'. intros k Hk.
  rewrite getByte_bits, setByte_bits by lia.
  replace (8 * i <=? k + 8 * i) with true by (symmetry; apply Z.leb_le; lia).
  replace (k + 8 * i - 8 * i) with k by lia.
  destruct (Z.ltb_spec k 8) as [Hlt | Hge].
  - replace (k + 8 * i <? 8 * i + 8) with true by (symmetry; apply Z.ltb_lt; lia).
    cbn [andb]. apply andb_true_r.
  - rewrite andb_false_r. symmetry.
    apply Z.bits_above_log2; [lia | ].
    destruct (Z.eq_dec b 0) as [-> | Hnz]; [cbn; lia | ].
    assert (Z.log2 b < 8) by (apply Z.log2_lt_pow2; lia).
    lia.
Qed.

Lemma getByte_setByte_other (v i j b : Z) :
  0 <= i -> 0 <= j -> i <> j -> getByte (setByte v i b) j = getByte v j.
Proof.
  intros Hi Hj Hne. apply Z.bits_inj'. intros k Hk.
  rewrite !getByte_bits, setByte_bits by lia.
  destruct (Z.ltb_spec k 8) as [Hlt | Hge]; [ | now rewrite !andb_false_r].
  rewrite !andb_true_r.
  destruct (Z.leb_spec (8 * i) (k + 8 * j)); destruct (Z.ltb_spec (k + 8 * j) (8 * i + 8));
    cbn [andb]; try reflexivity.
  lia.
Qed.

Lemma READ_U16_range (m : Machine) (k : Z) : 0 <= READ_U16 m k < 65536.
Proof.
  unfold READ_U16.
  pose proof (pcAt_range m k) as H0.
  pose proof (pcAt_range m (k + 1)) as H1.
  rewrite to_u16_id by lia.
  rewrite Z.shiftl_mul_pow2 by lia.
  set (a := pcAt m k) in *. set (b := pcAt m (k + 1) * 2 ^ 8).
  assert (Hb : 0 <= b < 65536) by (subst b; lia).
  split; [apply Z.lor_nonneg; lia | ].
  destruct (Z.eq_dec (Z.lor a b) 0) as [-> | Hnz]; [lia | ].
  apply (Z.log2_lt_pow2 _ 16); [pose proof (proj2 (Z.lor_nonneg a b)); lia | ].
  rewrite Z.log2_lor by lia.
  apply Z.max_lub_lt.
  - destruct (Z.eq_dec a 0) as [-> | Ha]; [cbn; lia | apply Z.log2_lt_pow2; lia].
  - destruct (Z.eq_dec b 0) as [-> | Hb0]; [cbn; lia | apply Z.log2_lt_pow2; lia].
Qed.

(** Bit 0 of the flags byte, as [op_Ret1] computes it. *)
Lemma retFlag_bit0 (b : Z) :
  negb (Z.land b (Z.b2z (0 <? 0x1)) =? 0) = Z.testbit b 0.
Proof.
  change (Z.b2z (0 <? 0x1)) with (Z.ones 1).
  rewrite Z.land_ones by lia.
  change (2 ^ 1) with 2.
  rewrite <- Z.bit0_mod.
  now destruct (Z.testbit b 0).
Qed.

(** ** The dispatch loop *)

Section Dispatch.

Context (host : Host).

Lemma step_decoded (m : Machine) (op : OpCode) :
  decodeOp (bytecode (vm m) (pc m)) = Some op -> step host m = execOp host op m.
Proof. intros H. unfold step. now rewrite H. Qed.

Lemma dispatch_Return (fuel : nat) (m m1 : Machine) (r : ResultCode) :
  step host m = Return r m1 -> dispatch host (S fuel) m = Return r m1.
Proof. intros H. cbn [dispatch]. now rewrite H. Qed.

Lemma dispatch_Fatal (fuel : nat) (m m1 : Machine) :
  step host m = Fatal m1 -> dispatch host (S fuel) m = Fatal m1.
Proof. intros H. cbn [dispatch]. now rewrite H. Qed.

Lemma dispatch_Next (fuel : nat) (m m1 : Machine) :
  step host m = Next m1 -> dispatch host (S fuel) m = dispatch host fuel m1.
Proof. intros H. cbn [dispatch]. now rewrite H. Qed.

End Dispatch.

(** ** Conditional jump *)

Section JumpNotCond.

Context (host : Host).

(** On a Boolean operand [JumpNotCond] jumps unless the operand is the
    value [true]. *)
Lemma JumpNotCond_boolean (m : Machine) :
  let cond := stackAt m (pcAt m 3) in
  VALUE_IS_BOOLEAN cond = true ->
  execOp host CodeJumpNotCond m =
  Next (advance m (if VALUE_AS_BOOLEAN cond then 4 else READ_U16 m 1)).
Proof.
  intros cond H. cbn [execOp]. unfold op_JumpNotCond. fold cond. rewrite H.
  rewrite to_u16_id by apply READ_U16_range.
  now destruct (VALUE_AS_BOOLEAN cond).
Qed.

(** C2: on a non-Boolean operand the jump must be taken exactly for the
    falsy value [None].  [VALUE_ASSUME_NOT_BOOL_TO_BOOL] is
    [VALUE_IS_NONE], without a negation, so the handler does the
    opposite: it falls through to the next instruction on [None] and
    takes the jump on every other non-Boolean value. *)
Theorem JumpNotCond_non_boolean_inverted (m : Machine) :
  let cond := stackAt m (pcAt m 3) in
  VALUE_IS_BOOLEAN cond = false ->
  execOp host CodeJumpNotCond m =
  Next (advance m (if VALUE_IS_NONE cond then 4 else READ_U16 m 1)).
Proof.
  intros cond H. cbn [execOp]. unfold op_JumpNotCond. fold cond. rewrite H.
  unfold VALUE_ASSUME_NOT_BOOL_TO_BOOL.
  rewrite to_u16_id by apply READ_U16_range.
  now destruct (VALUE_IS_NONE cond).
Qed.

End JumpNotCond.

Lemma JumpNotCond_non_boolean_inverted_witness :
  VALUE_IS_BOOLEAN (stackAt (Demo.jumpNotCond VALUE_NONE) 0) = false /\
  READ_U16 (Demo.jumpNotCond VALUE_NONE) 1 = 10 /\
  execOp Demo.host CodeJumpNotCond (Demo.jumpNotCond VALUE_NONE) =
  Next (advance (Demo.jumpNotCond VALUE_NONE) 4).
Proof.
  split; [reflexivity | split; [reflexivity | ]].
  exact (JumpNotCond_non_boolean_inverted Demo.host (Demo.jumpNotCond VALUE_NONE) eq_refl).
Defined.

Example ex_JumpNotCond_integer_zero_jumps :
  execOp Demo.host CodeJumpNotCond (Demo.jumpNotCond (VALUE_INTEGER 0)) =
  Next (advance (Demo.jumpNotCond (VALUE_INTEGER 0)) 10).
Proof. reflexivity. Qed.

Example ex_JumpNotNone_same_branch :
  execOp Demo.host CodeJumpNotNone (Demo.jumpNotCond (VALUE_INTEGER 0)) =
  Next (advance (Demo.jumpNotCond (VALUE_INTEGER 0)) 10) /\
  execOp Demo.host CodeJumpNotNone (Demo.jumpNotCond VALUE_NONE) =
  Next (advance (Demo.jumpNotCond VALUE_NONE) 4).
Proof. split; reflexivity. Qed.

(** ** Integer constants and integer arithmetic *)

Section Integers.

Context (host : Host).

(** C3: [ConstI8Int] with the operand byte 0x80 must load the integer
    -128.  The handler converts the unsigned byte straight to
    [int32_t], without the [int8_t] cast that [ConstI8] applies, so it
    stores the integer-tagged value 128. *)
Theorem ConstI8Int_0x80_loads_128 (m : Machine) :
  pcAt m 1 = 0x80 ->
  execOp host CodeConstI8Int m =
    Next (advance (setStack m (pcAt m 2) 0x7ffc000700000080) 3) /\
  VALUE_IS_INTEGER 0x7ffc000700000080 = true /\
  VALUE_AS_INTEGER 0x7ffc000700000080 = 128.
Proof.
  intros H. cbn [execOp]. unfold op_ConstI8Int. rewrite H.
  split; [reflexivity | split; reflexivity].
Qed.

(** The sibling [ConstI8] does sign-extend: on 0x80 it stores the double
    -128.0. *)
Lemma ConstI8_0x80_loads_minus_128 (m : Machine) :
  pcAt m 1 = 0x80 ->
  execOp host CodeConstI8 m =
    Next (advance (setStack m (pcAt m 2) (F64.of_int (-128))) 3).
Proof.
  intros H. cbn [execOp]. unfold op_ConstI8. now rewrite H.
Qed.

(** What [AddInt] and [SubInt] store: never a failure and never a
    fallback, and the payload is the wrapped sum or difference. *)
Lemma AddInt_stores (m : Machine) :
  let a := stackAt m (pcAt m 1) in
  let b := stackAt m (pcAt m 2) in
  let r := VALUE_INTEGER (to_i32 (VALUE_AS_INTEGER a + VALUE_AS_INTEGER b)) in
  execOp host CodeAddInt m = Next (advance (setStack m (pcAt m 3) r) 4) /\
  VALUE_AS_INTEGER r = to_i32 (VALUE_AS_INTEGER a + VALUE_AS_INTEGER b) /\
  Z.land r 0xffffffff = to_u32 (Z.land a 0xffffffff + Z.land b 0xffffffff).
Proof.
  intros a b r. split; [reflexivity | split].
  - apply VALUE_AS_INTEGER_VALUE_INTEGER, to_i32_range.
  - unfold r. rewrite VALUE_INTEGER_payload, to_u32_to_i32.
    apply to_u32_add_to_i32.
Qed.

Lemma SubInt_stores (m : Machine) :
  let a := stackAt m (pcAt m 1) in
  let b := stackAt m (pcAt m 2) in
  let r := VALUE_INTEGER (to_i32 (VALUE_AS_INTEGER a - VALUE_AS_INTEGER b)) in
  execOp host CodeSubInt m = Next (advance (setStack m (pcAt m 3) r) 4) /\
  VALUE_AS_INTEGER r = to_i32 (VALUE_AS_INTEGER a - VALUE_AS_INTEGER b) /\
  Z.land r 0xffffffff = to_u32 (Z.land a 0xffffffff - Z.land b 0xffffffff).
Proof.
  intros a b r. split; [reflexivity | split].
  - apply VALUE_AS_INTEGER_VALUE_INTEGER, to_i32_range.
  - unfold r. rewrite VALUE_INTEGER_payload, to_u32_to_i32.
    apply to_u32_sub_to_i32.
Qed.

End Integers.

Lemma ConstI8Int_0x80_loads_128_witness :
  pcAt Demo.constI8Int 1 = 0x80 /\
  execOp Demo.host CodeConstI8Int Demo.constI8Int =
    Next (advance (setStack Demo.constI8Int 0 (VALUE_INTEGER 128)) 3) /\
  VALUE_AS_INTEGER (VALUE_INTEGER 128) = 128.
Proof.
  split; [reflexivity | ].
  destruct (ConstI8Int_0x80_loads_128 Demo.host Demo.constI8Int eq_refl) as (He & _ & Hv).
  split; [exact He | exact Hv].
Defined.

Example ex_ConstI8_0x80 :
  execOp Demo.host CodeConstI8 Demo.constI8 =
  Next (advance (setStack Demo.constI8 0 0xc060000000000000) 3).
Proof. reflexivity. Qed.

Section IntegerTag.

Context (host : Host).

(** C10: [AddInt] and [SubInt] must store an integer-tagged result for
    all operands.  They never fail and the payload is the wrapped sum or
    difference, but whenever that result is negative the sign extension
    in [VALUE_INTEGER] sets the sign bit, and the stored value is a
    pointer for [VALUE_IS_POINTER] and no integer. *)
Theorem IntArith_negative_result_is_pointer (m : Machine) :
  let a := stackAt m (pcAt m 1) in
  let b := stackAt m (pcAt m 2) in
  let sum := to_i32 (VALUE_AS_INTEGER a + VALUE_AS_INTEGER b) in
  let diff := to_i32 (VALUE_AS_INTEGER a - VALUE_AS_INTEGER b) in
  (sum < 0 ->
   exists r, execOp host CodeAddInt m = Next (advance (setStack m (pcAt m 3) r) 4) /\
     VALUE_AS_INTEGER r = sum /\
     VALUE_IS_POINTER r = true /\ VALUE_IS_INTEGER r = false) /\
  (diff < 0 ->
   exists r, execOp host CodeSubInt m = Next (advance (setStack m (pcAt m 3) r) 4) /\
     VALUE_AS_INTEGER r = diff /\
     VALUE_IS_POINTER r = true /\ VALUE_IS_INTEGER r = false).
Proof.
  intros a b sum diff. split; intros Hneg.
  - pose proof (to_i32_range (VALUE_AS_INTEGER a + VALUE_AS_INTEGER b)) as Hr.
    fold sum in Hr. unfold is_i32 in Hr.
    destruct (VALUE_INTEGER_negative_is_pointer_aux sum) as (Hp & Hi & Hv); [lia | ].
    exists (VALUE_INTEGER sum). repeat split; assumption.
  - pose proof (to_i32_range (VALUE_AS_INTEGER a - VALUE_AS_INTEGER b)) as Hr.
    fold diff in Hr. unfold is_i32 in Hr.
    destruct (VALUE_INTEGER_negative_is_pointer_aux diff) as (Hp & Hi & Hv); [lia | ].
    exists (VALUE_INTEGER diff). repeat split; assumption.
Qed.

End IntegerTag.

Lemma IntArith_negative_result_is_pointer_witness :
  (exists r,
     execOp Demo.host CodeAddInt (Demo.addInt 0xffffffffffffffff (VALUE_INTEGER 0)) =
       Next (advance (setStack (Demo.addInt 0xffffffffffffffff (VALUE_INTEGER 0)) 2 r) 4) /\
     VALUE_AS_INTEGER r = -1 /\
     VALUE_IS_POINTER r = true /\ VALUE_IS_INTEGER r = false) /\
  (exists r,
     execOp Demo.host CodeSubInt (Demo.subInt (VALUE_INTEGER 1) (VALUE_INTEGER 2)) =
       Next (advance (setStack (Demo.subInt (VALUE_INTEGER 1) (VALUE_INTEGER 2)) 2 r) 4) /\
     VALUE_AS_INTEGER r = -1 /\
     VALUE_IS_POINTER r = true /\ VALUE_IS_INTEGER r = false).
Proof.
  split.
  - exact (proj1 (IntArith_negative_result_is_pointer Demo.host
                    (Demo.addInt 0xffffffffffffffff (VALUE_INTEGER 0))) eq_refl).
  - exact (proj2 (IntArith_negative_result_is_pointer Demo.host
                    (Demo.subInt (VALUE_INTEGER 1) (VALUE_INTEGER 2))) eq_refl).
Defined.

Example ex_SubInt_1_2 :
  execOp Demo.host CodeSubInt (Demo.subInt (VALUE_INTEGER 1) (VALUE_INTEGER 2)) =
  Next (advance (setStack (Demo.subInt (VALUE_INTEGER 1) (VALUE_INTEGER 2)) 2
                          0xffffffffffffffff) 4).
Proof. reflexivity. Qed.

Example ex_AddInt_3_4 :
  execOp Demo.host CodeAddInt (Demo.addInt (VALUE_INTEGER 3) (VALUE_INTEGER 4)) =
  Next (advance (setStack (Demo.addInt (VALUE_INTEGER 3) (VALUE_INTEGER 4)) 2
                          (VALUE_INTEGER 7)) 4).
Proof. reflexivity. Qed.

(** The stored difference is then treated as a reference: retaining it
    writes a count into the header at the address of its low 50 bits. *)
Example ex_retain_negative_integer :
  rc (heap (retain Demo.host (vm (Demo.subInt 0 0)) 0xffffffffffffffff)
           0x3ffffffffffff) = 1.
Proof. reflexivity. Qed.

(** ** Call frames *)

Ltac upd_simpl :=
  repeat first [ rewrite upd_same
               | rewrite upd_other by (unfold slot; lia) ].

Section Frames.

Context (host : Host).

(** [Ret1] in a frame that was asked for one value. *)
Lemma op_Ret1_keep (m : Machine) :
  getByte (stackAt m 1) 0 = 1 ->
  op_Ret1 host m =
  let m1 := mkMachine (stackAt m 2) (stackAt m 3) (vm m) in
  if Z.testbit (getByte (stackAt m 1) 1) 0
  then Return RES_CODE_SUCCESS m1 else Next m1.
Proof.
  intros H. unfold op_Ret1. rewrite H, retFlag_bit0. cbn [Z.eqb Pos.eqb].
  now destruct (Z.testbit (getByte (stackAt m 1) 1) 0).
Qed.

(** [Ret1] in a frame that was asked for no value. *)
Lemma op_Ret1_drop (m : Machine) :
  getByte (stackAt m 1) 0 = 0 ->
  op_Ret1 host m =
  let v1 := release host (vm m) (stackAt m 0) in
  let m1 := mkMachine (stackMem v1 (slot (stack m) 2))
                      (stackMem v1 (slot (stack m) 3)) v1 in
  if Z.testbit (getByte (stackAt m 1) 1) 0
  then Return RES_CODE_SUCCESS m1 else Next m1.
Proof.
  intros H. unfold op_Ret1. rewrite H, retFlag_bit0. cbn [Z.eqb].
  now destruct (Z.testbit (getByte (stackAt m 1) 1) 0).
Qed.

(** C4: [Ret1] pops the frame.  With [reqNumArgs] the byte 0 of slot 1
    and [final] the bit 0 of its byte 1: the value of slot 0 is kept
    when [reqNumArgs] is 1 and released when it is 0; pc is then loaded
    from slot 2 and the frame pointer from slot 3; the handler goes on
    to the next instruction when [final] is clear and returns Success
    from the dispatch loop, and so from [execBytecode], when it is
    set. *)
Theorem Ret1_pops_frame (m : Machine) :
  let reqNumArgs := getByte (stackAt m 1) 0 in
  let final := Z.testbit (getByte (stackAt m 1) 1) 0 in
  let v1 := if reqNumArgs =? 1 then vm m
            else release host (vm m) (stackAt m 0) in
  let m1 := mkMachine (stackMem v1 (slot (stack m) 2))
                      (stackMem v1 (slot (stack m) 3)) v1 in
  reqNumArgs = 1 \/ reqNumArgs = 0 ->
  execOp host CodeRet1 m = (if final then Return RES_CODE_SUCCESS m1 else Next m1) /\
  (decodeOp (bytecode (vm m) (pc m)) = Some CodeRet1 ->
   forall fuel,
     dispatch host (S fuel) m =
     if final then Return RES_CODE_SUCCESS m1 else dispatch host fuel m1) /\
  (decodeOp (bytecode (vm m) (pc m)) = Some CodeRet1 ->
   pc m = curPc (vm m) -> stack m = curStack (vm m) -> final = true ->
   forall fuel, execBytecode host (S fuel) (vm m) = Return RES_CODE_SUCCESS m1).
Proof.
  intros reqNumArgs final v1 m1 Hreq.
  assert (Hexec : execOp host CodeRet1 m =
                  if final then Return RES_CODE_SUCCESS m1 else Next m1).
  { cbn [execOp]. subst m1 v1. destruct Hreq as [H1 | H0].
    - rewrite (op_Ret1_keep m H1). fold reqNumArgs. rewrite H1. reflexivity.
    - rewrite (op_Ret1_drop m H0). fold reqNumArgs. rewrite H0. reflexivity. }
  split; [exact Hexec | ].
  assert (Hloop : decodeOp (bytecode (vm m) (pc m)) = Some CodeRet1 ->
                  forall fuel,
                    dispatch host (S fuel) m =
                    if final then Return RES_CODE_SUCCESS m1 else dispatch host fuel m1).
  { intros Hop fuel.
    pose proof (step_decoded host m CodeRet1 Hop) as Hstep.
    rewrite Hexec in Hstep.
    destruct final.
    - now apply dispatch_Return.
    - now apply dispatch_Next. }
  split; [exact Hloop | ].
  intros Hop Hpc Hstack Hfinal fuel.
  specialize (Hloop Hop fuel). rewrite Hfinal in Hloop.
  unfold execBytecode. rewrite <- Hpc, <- Hstack.
  now destruct m.
Qed.

(** C6: a call whose frame does not fit must end the dispatch loop with
    the Panic result code.  [CallFuncIC] has the return of the
    stack-overflow error commented out and calls [zFatal] in its place:
    the loop returns no result code at all. *)
Theorem CallFuncIC_overflow_is_fatal (m : Machine) :
  stackEndPtr (vm m) <= slot (slot (stack m) (pcAt m 1)) (pcAt m 4) ->
  execOp host CodeCallFuncIC m = Fatal m /\
  (decodeOp (bytecode (vm m) (pc m)) = Some CodeCallFuncIC ->
   forall fuel, dispatch host (S fuel) m = Fatal m /\
                dispatch host (S fuel) m <> Return RES_CODE_PANIC m).
Proof.
  intros Hov.
  assert (Hexec : execOp host CodeCallFuncIC m = Fatal m).
  { cbn [execOp]. unfold op_CallFuncIC.
    now rewrite (proj2 (Z.leb_le _ _) Hov). }
  split; [exact Hexec | ].
  intros Hop fuel.
  pose proof (step_decoded host m CodeCallFuncIC Hop) as Hstep.
  rewrite Hexec in Hstep.
  rewrite (dispatch_Fatal host fuel m m Hstep).
  split; [reflexivity | discriminate].
Qed.

(** The machine [CallFuncIC] leaves when the frame fits. *)
Lemma op_CallFuncIC_fits (m : Machine) :
  slot (slot (stack m) (pcAt m 1)) (pcAt m 4) < stackEndPtr (vm m) ->
  let fp := slot (stack m) (pcAt m 1) in
  let w0 := stackMem (vm m) (slot fp 1) in
  let mem1 := upd (stackMem (vm m)) (slot fp 1) (setByte w0 0 (pcAt m 3)) in
  let mem2 := upd mem1 (slot fp 1) (setByte (setByte w0 0 (pcAt m 3)) 1 0) in
  let mem3 := upd mem2 (slot fp 2) (pc m + 11) in
  let mem4 := upd mem3 (slot fp 3) (stack m) in
  op_CallFuncIC m = Next (mkMachine (READ_U48 m 5) fp (set_stackMem (vm m) mem4)).
Proof.
  intros Hfit fp w0 mem1 mem2 mem3 mem4.
  unfold op_CallFuncIC. rewrite (proj2 (Z.leb_gt _ _) Hfit).
  unfold setStack, stackAt, with_stack, with_vm, with_pc.
  cbn [pc stack vm stackMem set_stackMem].
  fold fp. rewrite upd_same. reflexivity.
Qed.

(** The frame [CallFuncIC] builds, and a [Ret1] that runs in it at
    once. *)
Lemma CallFuncIC_enters_frame_aux (m : Machine) :
  slot (slot (stack m) (pcAt m 1)) (pcAt m 4) < stackEndPtr (vm m) ->
  exists m1,
    execOp host CodeCallFuncIC m = Next m1 /\
    stack m1 = slot (stack m) (pcAt m 1) /\
    pc m1 = READ_U48 m 5 /\
    getByte (stackAt m1 1) 0 = pcAt m 3 /\
    getByte (stackAt m1 1) 1 = 0 /\
    stackAt m1 2 = pc m + 11 /\
    stackAt m1 3 = stack m /\
    (forall k, 2 <= k ->
               getByte (stackAt m1 1) k = getByte (stackMem (vm m) (slot (stack m1) 1)) k) /\
    (forall a, a <> slot (stack m1) 1 -> a <> slot (stack m1) 2 ->
               a <> slot (stack m1) 3 -> stackMem (vm m1) a = stackMem (vm m) a) /\
    heap (vm m1) = heap (vm m) /\
    bytecode (vm m1) = bytecode (vm m) /\
    (pcAt m 3 = 1 ->
     execOp host CodeRet1 m1 = Next (mkMachine (pc m + 11) (stack m) (vm m1))).
Proof.
  intros Hfit.
  pose proof (pcAt_range m 3) as Hret.
  pose proof (op_CallFuncIC_fits m Hfit) as Hexec. cbv zeta in Hexec.
  set (fp := slot (stack m) (pcAt m 1)) in *.
  set (w0 := stackMem (vm m) (slot fp 1)) in *.
  set (w2 := setByte (setByte w0 0 (pcAt m 3)) 1 0) in *.
  assert (Hb0 : getByte w2 0 = pcAt m 3).
  { unfold w2. rewrite getByte_setByte_other by lia.
    apply getByte_setByte_same; lia. }
  assert (Hb1 : getByte w2 1 = 0).
  { unfold w2. apply getByte_setByte_same; lia. }
  match type of Hexec with _ = Next ?M => set (m1 := M) in * end.
  assert (H1 : stackAt m1 1 = w2).
  { unfold stackAt, m1. cbn [pc stack vm stackMem set_stackMem]. now upd_simpl. }
  assert (H2 : stackAt m1 2 = pc m + 11).
  { unfold stackAt, m1. cbn [pc stack vm stackMem set_stackMem]. now upd_simpl. }
  assert (H3 : stackAt m1 3 = stack m).
  { unfold stackAt, m1. cbn [pc stack vm stackMem set_stackMem]. now upd_simpl. }
  exists m1. rewrite H1, H2, H3.
  split; [exact Hexec | ].
  split; [reflexivity | ]. split; [reflexivity | ].
  split; [exact Hb0 | ]. split; [exact Hb1 | ].
  split; [reflexivity | ]. split; [reflexivity | ].
  split.
  { intros k Hk. unfold w2. now rewrite !getByte_setByte_other by lia. }
  split.
  { intros a Ha1 Ha2 Ha3. unfold m1 in *.
    cbn [pc stack vm stackMem set_stackMem] in *.
    now rewrite !upd_other by assumption. }
  split; [reflexivity | ]. split; [reflexivity | ].
  intros Hone. cbn [execOp].
  rewrite (op_Ret1_keep m1) by (rewrite H1, Hb0; exact Hone).
  cbv zeta. rewrite H1, Hb1, H2, H3. reflexivity.
Qed.

(** X21: [CallFuncIC], when the frame fits, enters the callee.  The new
    frame starts [startLocal] slots above the caller's; byte 0 of its
    slot 1 is the requested return count and byte 1 is zero; slot 2 is
    the address of the instruction after the 11-byte call; slot 3 is the
    caller's frame pointer; pc is the callee's entry.  Nothing else
    changes.  A [Ret1] that runs in the new frame at once, before any
    other instruction of the callee, of a call that asked for one value
    lands on the saved pc in the caller's frame. *)
Theorem CallFuncIC_enters_frame (m : Machine) :
  slot (slot (stack m) (pcAt m 1)) (pcAt m 4) < stackEndPtr (vm m) ->
  exists m1,
    execOp host CodeCallFuncIC m = Next m1 /\
    stack m1 = slot (stack m) (pcAt m 1) /\
    pc m1 = READ_U48 m 5 /\
    getByte (stackAt m1 1) 0 = pcAt m 3 /\
    getByte (stackAt m1 1) 1 = 0 /\
    stackAt m1 2 = pc m + 11 /\
    stackAt m1 3 = stack m /\
    (forall k, 2 <= k ->
               getByte (stackAt m1 1) k = getByte (stackMem (vm m) (slot (stack m1) 1)) k) /\
    (forall a, a <> slot (stack m1) 1 -> a <> slot (stack m1) 2 ->
               a <> slot (stack m1) 3 -> stackMem (vm m1) a = stackMem (vm m) a) /\
    heap (vm m1) = heap (vm m) /\
    bytecode (vm m1) = bytecode (vm m) /\
    (pcAt m 3 = 1 ->
     execOp host CodeRet1 m1 = Next (mkMachine (pc m + 11) (stack m) (vm m1))).
Proof. exact (CallFuncIC_enters_frame_aux m). Qed.

End Frames.

Lemma Ret1_pops_frame_witness :
  execOp Demo.host CodeRet1 (Demo.ret1 Demo.objRef 0 1 (Demo.oneObject 2)) =
  Return RES_CODE_SUCCESS
    (mkMachine 1234 1968
       (release Demo.host (vm (Demo.ret1 Demo.objRef 0 1 (Demo.oneObject 2))) Demo.objRef)).
Proof.
  exact (proj1 (Ret1_pops_frame Demo.host
                  (Demo.ret1 Demo.objRef 0 1 (Demo.oneObject 2))
                  (or_intror eq_refl))).
Defined.

Example ex_Ret1_keeps_value :
  execOp Demo.host CodeRet1 (Demo.ret1 Demo.objRef 1 0 (Demo.oneObject 2)) =
  Next (mkMachine 1234 1968 (vm (Demo.ret1 Demo.objRef 1 0 (Demo.oneObject 2)))).
Proof. reflexivity. Qed.

Example ex_Ret1_released_count :
  rc (heap (release Demo.host (vm (Demo.ret1 Demo.objRef 0 1 (Demo.oneObject 2)))
                    Demo.objRef) Demo.OBJ) = 1.
Proof. reflexivity. Qed.

Example ex_Ret1_other_count_is_fatal :
  execOp Demo.host CodeRet1 (Demo.ret1 Demo.objRef 2 0 (Demo.oneObject 2)) =
  Fatal (Demo.ret1 Demo.objRef 2 0 (Demo.oneObject 2)).
Proof. reflexivity. Qed.

Lemma CallFuncIC_overflow_is_fatal_witness :
  stackEndPtr (vm (Demo.callFuncIC 8)) <=
    slot (slot (stack (Demo.callFuncIC 8)) 5) 4 /\
  execOp Demo.host CodeCallFuncIC (Demo.callFuncIC 8) = Fatal (Demo.callFuncIC 8) /\
  dispatch Demo.host 1 (Demo.callFuncIC 8) = Fatal (Demo.callFuncIC 8).
Proof.
  assert (H : stackEndPtr (vm (Demo.callFuncIC 8)) <=
              slot (slot (stack (Demo.callFuncIC 8)) 5) 4) by (vm_compute; discriminate).
  split; [exact H | ].
  destruct (CallFuncIC_overflow_is_fatal Demo.host (Demo.callFuncIC 8) H) as [He Hd].
  split; [exact He | ].
  exact (proj1 (Hd eq_refl 0%nat)).
Defined.

Lemma CallFuncIC_enters_frame_witness :
  exists m1,
    execOp Demo.host CodeCallFuncIC (Demo.callFuncIC 16) = Next m1 /\
    stack m1 = 2040 /\ pc m1 = 1234 /\
    getByte (stackAt m1 1) 0 = 1 /\ getByte (stackAt m1 1) 1 = 0 /\
    stackAt m1 2 = 1011 /\ stackAt m1 3 = 2000 /\
    execOp Demo.host CodeRet1 m1 = Next (mkMachine 1011 2000 (vm m1)).
Proof.
  assert (H : slot (slot (stack (Demo.callFuncIC 16)) (pcAt (Demo.callFuncIC 16) 1))
                   (pcAt (Demo.callFuncIC 16) 4) <
              stackEndPtr (vm (Demo.callFuncIC 16))) by reflexivity.
  destruct (CallFuncIC_enters_frame Demo.host (Demo.callFuncIC 16) H)
    as (m1 & He & Hs & Hp & Hb0 & Hb1 & H2 & H3 & _ & _ & _ & _ & Hr).
  exists m1.
  split; [exact He | ]. split; [exact Hs | ]. split; [exact Hp | ].
  split; [exact Hb0 | ]. split; [exact Hb1 | ].
  split; [exact H2 | ]. split; [exact H3 | ].
  exact (Hr eq_refl).
Defined.

(** ** Calls of functions with locals *)

Lemma stackAt_setStack (m : Machine) (i k v : Z) :
  stackAt (setStack m i v) k = if k =? i then v else stackAt m k.
Proof.
  unfold stackAt, setStack, with_vm. cbn [pc stack vm stackMem set_stackMem].
  unfold upd, slot.
  destruct (Z.eqb_spec k i) as [-> | Hne].
  - now rewrite Z.eqb_refl.
  - rewrite (proj2 (Z.eqb_neq _ _)); [reflexivity | lia].
Qed.

Lemma setInitLoop_exits (bound : Z) (rounds : nat) :
  bound <= 255 ->
  forall (m : Machine) (i : Z),
    0 <= i <= bound -> (Z.to_nat (bound - i) <= rounds)%nat ->
    exists m1,
      setInitLoop rounds m i bound = Some m1 /\
      pc m1 = pc m /\ stack m1 = stack m /\
      heap (vm m1) = heap (vm m) /\ bytecode (vm m1) = bytecode (vm m) /\
      refCounts (vm m1) = refCounts (vm m) /\
      forall k, stackAt m1 k =
                if (i <=? k) && (k <? bound) then VALUE_NONE else stackAt m k.
Proof.
  intros Hb. induction rounds as [ | r IH]; intros m i Hi Hr.
  - assert (i = bound) by lia. subst i.
    exists m. cbn [setInitLoop]. rewrite Z.ltb_irrefl.
    repeat split. intros k.
    destruct (Z.leb_spec bound k); destruct (Z.ltb_spec k bound);
      cbn [andb]; try reflexivity; lia.
  - cbn [setInitLoop]. destruct (Z.ltb_spec i bound) as [Hlt | Hge].
    + assert (Hu : to_u8 (i + 1) = i + 1) by (apply to_u8_id; lia).
      rewrite Hu.
      destruct (IH (setStack m i VALUE_NONE) (i + 1)) as
        (m1 & He & Hp & Hs & Hh & Hc & Hg & Hk); [lia | lia | ].
      exists m1. split; [exact He | ].
      split; [exact Hp | ]. split; [exact Hs | ].
      split; [exact Hh | ]. split; [exact Hc | ]. split; [exact Hg | ].
      intros k. rewrite Hk, stackAt_setStack.
      destruct (Z.leb_spec (i + 1) k); destruct (Z.ltb_spec k bound);
        destruct (Z.leb_spec i k); destruct (Z.eqb_spec k i);
        cbn [andb]; try reflexivity; lia.
    + assert (i = bound) by lia. subst i.
      exists m. repeat split. intros k.
      destruct (Z.leb_spec bound k); destruct (Z.ltb_spec k bound);
        cbn [andb]; try reflexivity; lia.
Qed.

(** What [SetInitN] leaves when its loop ends. *)
Lemma op_SetInitN_exits (m : Machine) :
  pcAt m 1 <= 253 ->
  exists m1,
    op_SetInitN m = Next m1 /\
    pc m1 = pc m + 2 + pcAt m 1 /\ stack m1 = stack m /\
    heap (vm m1) = heap (vm m) /\ bytecode (vm m1) = bytecode (vm m) /\
    refCounts (vm m1) = refCounts (vm m) /\
    forall k, stackAt m1 k =
              if (2 <=? k) && (k <? 2 + pcAt m 1) then VALUE_NONE else stackAt m k.
Proof.
  intros Hn. pose proof (pcAt_range m 1) as Hr.
  destruct (setInitLoop_exits (2 + pcAt m 1) 256 ltac:(lia) m 2)
    as (m1 & He & Hp & Hs & Hh & Hc & Hg & Hk); [lia | lia | ].
  exists (advance m1 (2 + pcAt m 1)).
  unfold op_SetInitN. rewrite He.
  split; [reflexivity | ].
  split; [cbn [advance with_pc pc]; lia | ].
  repeat split; assumption.
Qed.

Section CallsWithLocals.

Context (host : Host).

(** C5: a call must return to the pc it stored.  [CallFuncIC] stores
    the requested count, the cleared flags, the return pc (the call's
    pc plus 11) and the caller's frame pointer in slots 1 to 3 of the
    new frame and enters the callee.  When the callee starts with
    [SetInitN], as a function with locals does, that instruction writes
    None over slot 2, and over slot 3 when it has two locals or more:
    it indexes the frame by its loop counter, not by the operand bytes
    it skips.  The [Ret1] that follows then leaves the frame with slot 2
    different from the stored pc and continues at the pc [VALUE_NONE]. *)
Theorem CallFuncIC_return_pc_overwritten (m : Machine) :
  let entry := READ_U48 m 5 in
  let numLocals := u8 (bytecode (vm m) (entry + 1)) in
  slot (slot (stack m) (pcAt m 1)) (pcAt m 4) < stackEndPtr (vm m) ->
  pcAt m 3 = 1 ->
  decodeOp (bytecode (vm m) (pc m)) = Some CodeCallFuncIC ->
  decodeOp (bytecode (vm m) entry) = Some CodeSetInitN ->
  1 <= numLocals <= 253 ->
  decodeOp (bytecode (vm m) (entry + 2 + numLocals)) = Some CodeRet1 ->
  pc m + 11 <> VALUE_NONE ->
  exists m1 m2 m3,
    step host m = Next m1 /\
    stack m1 = slot (stack m) (pcAt m 1) /\ pc m1 = entry /\
    getByte (stackAt m1 1) 0 = 1 /\ getByte (stackAt m1 1) 1 = 0 /\
    stackAt m1 2 = pc m + 11 /\ stackAt m1 3 = stack m /\
    step host m1 = Next m2 /\
    stack m2 = stack m1 /\ pc m2 = entry + 2 + numLocals /\
    stackAt m2 1 = stackAt m1 1 /\
    stackAt m2 2 = VALUE_NONE /\ stackAt m2 2 <> pc m + 11 /\
    step host m2 = Next m3 /\
    pc m3 = VALUE_NONE /\ pc m3 <> pc m + 11 /\
    (2 <= numLocals -> stack m3 = VALUE_NONE) /\
    dispatch host 3 m = Next m3.
Proof.
  intros entry numLocals Hfit Hone Hcall Hinit Hn Hret Hpc.
  destruct (CallFuncIC_enters_frame_aux host m Hfit)
    as (m1 & He & Hs & Hp & Hb0 & Hb1 & H2 & H3 & _ & _ & _ & Hbc & _).
  fold entry in Hp.
  assert (Hstep1 : step host m = Next m1).
  { rewrite (step_decoded host m CodeCallFuncIC Hcall). exact He. }
  assert (Hn1 : pcAt m1 1 = numLocals).
  { unfold pcAt. now rewrite Hbc, Hp. }
  destruct (op_SetInitN_exits m1) as (m2 & He2 & Hp2 & Hs2 & _ & Hbc2 & _ & Hk);
    [rewrite Hn1; lia | ].
  rewrite Hn1 in Hp2, Hk.
  assert (Hstep2 : step host m1 = Next m2).
  { rewrite (step_decoded host m1 CodeSetInitN); [exact He2 | ].
    now rewrite Hbc, Hp. }
  assert (K1 : stackAt m2 1 = stackAt m1 1) by (rewrite Hk; reflexivity).
  assert (K2 : stackAt m2 2 = VALUE_NONE).
  { rewrite Hk. now rewrite (proj2 (Z.ltb_lt 2 (2 + numLocals))) by lia. }
  assert (Hexec3 : execOp host CodeRet1 m2 =
                   Next (mkMachine (stackAt m2 2) (stackAt m2 3) (vm m2))).
  { cbn [execOp]. rewrite (op_Ret1_keep host m2) by (now rewrite K1, Hb0).
    cbv zeta. now rewrite K1, Hb1. }
  assert (Hstep3 : step host m2 =
                   Next (mkMachine (stackAt m2 2) (stackAt m2 3) (vm m2))).
  { rewrite (step_decoded host m2 CodeRet1); [exact Hexec3 | ].
    now rewrite Hbc2, Hbc, Hp2, Hp. }
  exists m1, m2, (mkMachine (stackAt m2 2) (stackAt m2 3) (vm m2)).
  split; [exact Hstep1 | ]. split; [exact Hs | ]. split; [exact Hp | ].
  split; [now rewrite Hb0 | ]. split; [exact Hb1 | ].
  split; [exact H2 | ]. split; [exact H3 | ].
  split; [exact Hstep2 | ]. split; [exact Hs2 | ]. split; [rewrite Hp2, Hp; reflexivity | ].
  split; [exact K1 | ]. split; [exact K2 | ].
  split; [rewrite K2; now apply not_eq_sym | ].
  split; [exact Hstep3 | ].
  cbn [pc stack]. split; [exact K2 | ].
  split; [rewrite K2; now apply not_eq_sym | ].
  split.
  { intros H2l. rewrite Hk.
    now rewrite (proj2 (Z.ltb_lt 3 (2 + numLocals))) by lia. }
  rewrite (dispatch_Next host 2 m m1 Hstep1).
  rewrite (dispatch_Next host 1 m1 m2 Hstep2).
  rewrite (dispatch_Next host 0 m2 _ Hstep3).
  reflexivity.
Qed.

End CallsWithLocals.

Lemma CallFuncIC_return_pc_overwritten_witness :
  exists m1 m2 m3,
    step Demo.host Demo.callWithLocals = Next m1 /\
    stack m1 = 2040 /\ pc m1 = 1012 /\
    stackAt m1 2 = 1011 /\ stackAt m1 3 = 2000 /\
    step Demo.host m1 = Next m2 /\
    stackAt m2 2 = VALUE_NONE /\
    step Demo.host m2 = Next m3 /\
    pc m3 = VALUE_NONE /\ pc m3 <> 1011 /\ stack m3 = VALUE_NONE /\
    dispatch Demo.host 3 Demo.callWithLocals = Next m3.
Proof.
  destruct (CallFuncIC_return_pc_overwritten Demo.host Demo.callWithLocals)
    as (m1 & m2 & m3 & S1 & Hs & Hp & _ & _ & H2 & H3 & S2 & _ & _ & _ & K2 & _ &
        S3 & P3 & N3 & F3 & D).
  - reflexivity.
  - reflexivity.
  - reflexivity.
  - reflexivity.
  - split; vm_compute; discriminate.
  - reflexivity.
  - vm_compute. discriminate.
  - exists m1, m2, m3.
    split; [exact S1 | ]. split; [exact Hs | ]. split; [exact Hp | ].
    split; [exact H2 | ]. split; [exact H3 | ].
    split; [exact S2 | ]. split; [exact K2 | ].
    split; [exact S3 | ]. split; [exact P3 | ]. split; [exact N3 | ].
    split; [apply F3; vm_compute; discriminate | exact D].
Defined.

(** ** Reference counts *)

Section RefCounts.

Context (host : Host).

(** C7: on a value that is no pointer, [retain] and [release] change
    nothing.  On a pointer, [retain] adds one to the [rc] of the object
    the value addresses and, when the global count is tracked, to
    [refCounts]; [release] subtracts one from both and hands the object
    to [zFreeObject] exactly when its [rc] has become 0.  Both counts
    are unsigned and wrap; no other header, and neither the stack nor
    the bytecode, is touched. *)
Theorem retain_release_spec (v : VM) (val : Value) :
  let obj := VALUE_AS_HEAPOBJECT val in
  (VALUE_IS_POINTER val = false ->
   release host v val = v /\ retain host v val = v) /\
  (VALUE_IS_POINTER val = true ->
   (rc (heap (retain host v val) obj) = to_u32 (rc (heap v obj) + 1) /\
    (0 <= rc (heap v obj) < 0xffffffff ->
     rc (heap (retain host v val) obj) = rc (heap v obj) + 1) /\
    typeId (heap (retain host v val) obj) = typeId (heap v obj) /\
    (forall o, o <> obj -> heap (retain host v val) o = heap v o) /\
    refCounts (retain host v val) =
      (if TRACK_GLOBAL_RC host then to_u64 (refCounts v + 1) else refCounts v) /\
    stackMem (retain host v val) = stackMem v /\
    bytecode (retain host v val) = bytecode v) /\
   exists v1,
    rc (heap v1 obj) = to_u32 (rc (heap v obj) - 1) /\
    (0 < rc (heap v obj) <= 0xffffffff ->
     rc (heap v1 obj) = rc (heap v obj) - 1) /\
    typeId (heap v1 obj) = typeId (heap v obj) /\
    (forall o, o <> obj -> heap v1 o = heap v o) /\
    refCounts v1 =
      (if TRACK_GLOBAL_RC host then to_u64 (refCounts v - 1) else refCounts v) /\
    stackMem v1 = stackMem v /\
    bytecode v1 = bytecode v /\
    (rc (heap v1 obj) = 0 -> release host v val = zFreeObject host v1 obj) /\
    (rc (heap v1 obj) <> 0 -> release host v val = v1)).
Proof.
  intros obj. split; intros Hp.
  - unfold release, retain. now rewrite Hp.
  - split.
    + unfold retain. rewrite Hp. fold obj.
      destruct (TRACK_GLOBAL_RC host);
        cbn [heap refCounts stackMem bytecode set_heap set_refCounts];
        rewrite upd_same; cbn [rc typeId set_rc];
        (split; [reflexivity | ]);
        (split; [intros Hr; unfold to_u32; apply Z.mod_small; lia | ]);
        (split; [reflexivity | ]);
        (split; [intros o Ho; now apply upd_other | ]);
        repeat split.
    + unfold release. rewrite Hp. fold obj.
      set (h1 := upd (heap v) obj (set_rc (heap v obj) (to_u32 (rc (heap v obj) - 1)))).
      set (v1 := set_heap v h1).
      set (v2 := if TRACK_GLOBAL_RC host
                 then set_refCounts v1 (to_u64 (refCounts v1 - 1)) else v1).
      assert (Hheap : heap v2 = h1) by (unfold v2; now destruct (TRACK_GLOBAL_RC host)).
      exists v2. rewrite Hheap. unfold h1 at 1 2 3. rewrite upd_same.
      cbn [rc typeId set_rc].
      split; [reflexivity | ].
      split; [intros Hr; unfold to_u32; apply Z.mod_small; lia | ].
      split; [reflexivity | ].
      split; [intros o Ho; unfold h1; now apply upd_other | ].
      split; [unfold v2; now destruct (TRACK_GLOBAL_RC host) | ].
      split; [unfold v2; now destruct (TRACK_GLOBAL_RC host) | ].
      split; [unfold v2; now destruct (TRACK_GLOBAL_RC host) | ].
      unfold h1. rewrite upd_same. cbn [rc set_rc].
      split; intros Hz.
      * now rewrite Hz.
      * now rewrite (proj2 (Z.eqb_neq _ _) Hz).
Qed.

End RefCounts.

Lemma retain_release_spec_witness :
  VALUE_IS_POINTER Demo.objRef = true /\
  rc (heap (retain Demo.host (vm (Demo.ret1 0 1 0 (Demo.oneObject 1))) Demo.objRef)
           Demo.OBJ) = 2 /\
  refCounts (retain Demo.host (vm (Demo.ret1 0 1 0 (Demo.oneObject 1))) Demo.objRef) = 2.
Proof.
  split; [reflexivity | ].
  destruct (proj2 (retain_release_spec Demo.host
                     (vm (Demo.ret1 0 1 0 (Demo.oneObject 1))) Demo.objRef) eq_refl)
    as [(Hrc & _ & _ & _ & Hg & _) _].
  split; [exact Hrc | exact Hg].
Defined.

Example ex_release_last_reference_frees :
  heap (release Demo.host (vm (Demo.ret1 0 1 0 (Demo.oneObject 1))) Demo.objRef)
       Demo.OBJ = mkRetainedCommon Demo.NULL_ID 0 /\
  refCounts (release Demo.host (vm (Demo.ret1 0 1 0 (Demo.oneObject 1))) Demo.objRef) = 0.
Proof. split; reflexivity. Qed.

Example ex_release_other_reference_stays :
  heap (release Demo.host (vm (Demo.ret1 0 1 0 (Demo.oneObject 2))) Demo.objRef)
       Demo.OBJ = mkRetainedCommon 30 1.
Proof. reflexivity. Qed.

Example ex_release_non_pointer :
  release Demo.host (vm (Demo.ret1 0 1 0 (Demo.oneObject 1))) (VALUE_INTEGER 7) =
  vm (Demo.ret1 0 1 0 (Demo.oneObject 1)).
Proof. reflexivity. Qed.

(** ** Inline cache of native method calls *)

Section InlineCache.

Context (host : Host).

(** C8: [CallObjNativeFuncIC] compares the type id of the receiver with
    the cached one.  On a mismatch it only writes the opcode byte of
    [CallObjSym] at pc: pc, stack and everything else stay, no native
    function is called, and the next dispatch runs the generic handler
    on the same instruction.  On a match it calls the cached method
    pointer with the receiver and the arguments; for a call that
    requests 0 or 1 values it stores the result in slot [startLocal]
    when 1 is requested and advances pc by 14. *)
Theorem CallObjNativeFuncIC_hit_or_deopt (m : Machine) :
  let startLocal := pcAt m 1 in
  let numArgs := pcAt m 2 in
  let recv := stackAt m (startLocal + numArgs + 4 - 1) in
  let called := callMethodPtr host (READ_U48 m 6) (set_curStack (vm m) (stack m))
                              recv (slot (stack m) (startLocal + 4)) numArgs in
  let numRet := u8 (bytecode (fst called) (pc m + 3)) in
  (getTypeId host (vm m) recv <> READ_U16 m 12 ->
   let m1 := setInst m 0 byte_CallObjSym in
   execOp host CodeCallObjNativeFuncIC m = Next m1 /\
   pc m1 = pc m /\ stack m1 = stack m /\
   decodeOp (bytecode (vm m1) (pc m1)) = Some CodeCallObjSym /\
   (forall a, a <> pc m -> bytecode (vm m1) a = bytecode (vm m) a) /\
   stackMem (vm m1) = stackMem (vm m) /\
   heap (vm m1) = heap (vm m) /\
   curStack (vm m1) = curStack (vm m) /\
   step host m1 = execOp host CodeCallObjSym m1) /\
  (getTypeId host (vm m) recv = READ_U16 m 12 ->
   numRet <= 1 ->
   exists m1,
     execOp host CodeCallObjNativeFuncIC m = Next m1 /\
     pc m1 = pc m + 14 /\ stack m1 = stack m /\
     vm m1 = if numRet =? 1
             then set_stackMem (fst called)
                    (upd (stackMem (fst called)) (slot (stack m) startLocal) (snd called))
             else fst called).
Proof.
  intros startLocal numArgs recv called numRet. split.
  - intros Hmiss m1.
    assert (Hdec : decodeOp (bytecode (vm m1) (pc m1)) = Some CodeCallObjSym).
    { unfold m1, setInst, with_vm. cbn [pc vm bytecode set_bytecode].
      rewrite Z.add_0_r, upd_same. reflexivity. }
    split.
    { cbn [execOp]. unfold op_CallObjNativeFuncIC.
      fold startLocal numArgs recv.
      now rewrite (proj2 (Z.eqb_neq _ _) Hmiss). }
    split; [reflexivity | ]. split; [reflexivity | ].
    split; [exact Hdec | ].
    split.
    { intros a Ha. unfold m1, setInst, with_vm. cbn [pc vm bytecode set_bytecode].
      apply upd_other. lia. }
    split; [reflexivity | ]. split; [reflexivity | ]. split; [reflexivity | ].
    now apply step_decoded.
  - intros Hhit Hret.
    pose proof (u8_range (bytecode (fst called) (pc m + 3))) as Hrange.
    fold numRet in Hrange.
    cbn [execOp]. unfold op_CallObjNativeFuncIC.
    fold startLocal numArgs recv. rewrite Hhit, Z.eqb_refl.
    fold called. destruct called as [v2 res] eqn:Hcall. cbn [fst snd] in *.
    unfold pcAt, with_vm. cbn [pc vm stack bytecode]. fold numRet.
    destruct (Z.eqb_spec numRet 1) as [H1 | H1].
    + eexists. split; [reflexivity | ]. repeat split.
    + assert (H0 : numRet = 0) by lia.
      rewrite H0. cbn [Z.eqb].
      eexists. split; [reflexivity | ]. repeat split.
Qed.

End InlineCache.

Lemma CallObjNativeFuncIC_hit_or_deopt_witness :
  (execOp Demo.host CodeCallObjNativeFuncIC
          (Demo.callObjNativeFuncIC (VALUE_INTEGER 3) Byte.x01) =
   Next (setInst (Demo.callObjNativeFuncIC (VALUE_INTEGER 3) Byte.x01) 0 byte_CallObjSym)) /\
  (exists m1,
     execOp Demo.host CodeCallObjNativeFuncIC
            (Demo.callObjNativeFuncIC Demo.objRef Byte.x01) = Next m1 /\
     pc m1 = 1014 /\ stackMem (vm m1) 2008 = VALUE_INTEGER 5).
Proof.
  split.
  - refine (proj1 (proj1 (CallObjNativeFuncIC_hit_or_deopt Demo.host
             (Demo.callObjNativeFuncIC (VALUE_INTEGER 3) Byte.x01)) _)).
    vm_compute. discriminate.
  - destruct (proj2 (CallObjNativeFuncIC_hit_or_deopt Demo.host
                       (Demo.callObjNativeFuncIC Demo.objRef Byte.x01)) eq_refl)
      as (m1 & He & Hp & _ & Hv).
    + vm_compute. discriminate.
    + exists m1. split; [exact He | ]. split; [exact Hp | ].
      rewrite Hv. reflexivity.
Defined.

Example ex_CallObjNativeFuncIC_other_count_is_fatal :
  execOp Demo.host CodeCallObjNativeFuncIC
         (Demo.callObjNativeFuncIC Demo.objRef Byte.x02) =
  Fatal (with_vm (Demo.callObjNativeFuncIC Demo.objRef Byte.x02)
                 (set_curStack (vm (Demo.callObjNativeFuncIC Demo.objRef Byte.x02)) 2000)).
Proof. reflexivity. Qed.

(** ** Range loops *)

Lemma F64_magnitude_nonneg (d : Z) : 0 <= F64.magnitude d.
Proof.
  unfold F64.magnitude. apply Z.land_nonneg. right.
  unfold F64.MAGNITUDE_MASK. lia.
Qed.

(** After [if (step < 0) step = -step] the step is not below zero. *)
Lemma F64_normalized_step (s : Z) :
  F64.ltb (if F64.ltb s F64.zero then F64.neg s else s) F64.zero = false.
Proof.
  destruct (F64.ltb s F64.zero) eqn:E; [ | exact E].
  unfold F64.ltb in E |- *.
  apply andb_true_iff in E as [_ E].
  change (F64.key F64.zero) with 0 in *.
  apply Z.ltb_lt in E. unfold F64.key in E.
  destruct (F64.sign s) eqn:Hs; [ | pose proof (F64_magnitude_nonneg s); lia].
  assert (Hn : F64.sign (F64.neg s) = false).
  { unfold F64.sign, F64.neg in *. rewrite Z.lxor_spec, Hs. reflexivity. }
  unfold F64.key. rewrite Hn.
  rewrite (proj2 (Z.ltb_ge _ _) (F64_magnitude_nonneg (F64.neg s))).
  apply andb_false_r.
Qed.

Section ForRange.

Context (host : Host).

(** [ForRangeInit] when start and end compare equal. *)
Lemma op_ForRangeInit_skip (m : Machine) :
  let start := toF64 host (vm m) (stackAt m (pcAt m 1)) in
  let end_ := toF64 host (vm m) (stackAt m (pcAt m 2)) in
  let m1 := setStack m (pcAt m 2) (VALUE_NUMBER end_) in
  let step0 := toF64 host (vm m1) (stackAt m1 (pcAt m 3)) in
  let step := if F64.ltb step0 F64.zero then F64.neg step0 else step0 in
  let m2 := setStack m1 (pcAt m 3) (VALUE_NUMBER step) in
  F64.eqb start end_ = true ->
  op_ForRangeInit host m = Next (advance m2 (READ_U16 m 6 + 7)).
Proof.
  intros start end_ m1 step0 step m2 Heq.
  unfold op_ForRangeInit. fold start end_. fold m1.
  change (pcAt m1 3) with (pcAt m 3). fold step0. fold step. fold m2.
  now rewrite Heq.
Qed.

(** C9, as the code has it: [ForRangeInit] first writes the end and the
    step back as doubles, the step made non-negative.  When start and
    end compare equal it writes nothing else, neither a register nor
    the bytecode, and moves pc by the 16-bit offset plus 7, which is
    past the body and past the 7-byte instruction that closes the loop.
    Otherwise it stores start in the counter and in the loop variable,
    writes [ForRange] over the opcode at the offset when start is below
    end and [ForRangeReverse] when it is not, and moves pc by 8. *)
Theorem ForRangeInit_skips_or_enters (m : Machine) :
  let start := toF64 host (vm m) (stackAt m (pcAt m 1)) in
  let end_ := toF64 host (vm m) (stackAt m (pcAt m 2)) in
  let m1 := setStack m (pcAt m 2) (VALUE_NUMBER end_) in
  let step0 := toF64 host (vm m1) (stackAt m1 (pcAt m 3)) in
  let step := if F64.ltb step0 F64.zero then F64.neg step0 else step0 in
  let m2 := setStack m1 (pcAt m 3) (VALUE_NUMBER step) in
  let offset := READ_U16 m 6 in
  F64.ltb step F64.zero = false /\
  (F64.eqb start end_ = true ->
   execOp host CodeForRangeInit m = Next (advance m2 (offset + 7)) /\
   pc (advance m2 (offset + 7)) = pc m + offset + 7 /\
   bytecode (vm m2) = bytecode (vm m) /\
   (forall k, k <> pcAt m 2 -> k <> pcAt m 3 -> stackAt m2 k = stackAt m k)) /\
  (F64.eqb start end_ = false ->
   exists m3,
     execOp host CodeForRangeInit m = Next m3 /\
     pc m3 = pc m + 8 /\ stack m3 = stack m /\
     stackAt m3 (pcAt m 4) = VALUE_NUMBER start /\
     stackAt m3 (pcAt m 5) = VALUE_NUMBER start /\
     (pcAt m 3 <> pcAt m 4 -> pcAt m 3 <> pcAt m 5 ->
      stackAt m3 (pcAt m 3) = VALUE_NUMBER step) /\
     bytecode (vm m3) (pc m + offset) =
       (if F64.ltb start end_ then byte_ForRange else byte_ForRangeReverse) /\
     (forall a, a <> pc m + offset -> bytecode (vm m3) a = bytecode (vm m) a)).
Proof.
  intros start end_ m1 step0 step m2 offset.
  split; [apply F64_normalized_step | ]. split.
  - intros Heq. split; [exact (op_ForRangeInit_skip m Heq) | ].
    split; [unfold m2, m1, advance, setStack, with_pc, with_vm; cbn [pc]; lia | ].
    split; [reflexivity | ].
    intros k H2 H3.
    unfold m2, m1, stackAt, setStack, with_vm.
    cbn [pc stack vm stackMem set_stackMem].
    rewrite !upd_other; [reflexivity | | ].
    + intros E. apply H2. now apply slot_inj in E.
    + intros E. apply H3. now apply slot_inj in E.
  - intros Hne.
    pose proof (READ_U16_range m 6) as Hoff. fold offset in Hoff.
    eexists. split.
    { cbn [execOp]. unfold op_ForRangeInit. fold start end_. fold m1.
      change (pcAt m1 3) with (pcAt m 3). fold step0. fold step. fold m2.
      rewrite Hne.
      change (pcAt m2 4) with (pcAt m 4).
      change (pcAt (setStack m2 (pcAt m 4) (VALUE_NUMBER start)) 5) with (pcAt m 5).
      change (READ_U16 (setStack (setStack m2 (pcAt m 4) (VALUE_NUMBER start))
                                 (pcAt m 5) (VALUE_NUMBER start)) 6) with offset.
      rewrite (to_u16_id offset Hoff). reflexivity. }
    split.
    { now destruct (F64.ltb start end_). }
    split.
    { now destruct (F64.ltb start end_). }
    assert (Hmem : forall b : Byte.byte,
               stackMem (vm (advance (setInst (setStack (setStack m2 (pcAt m 4) (VALUE_NUMBER start))
                                       (pcAt m 5) (VALUE_NUMBER start)) offset b) 8)) =
               upd (upd (stackMem (vm m2)) (slot (stack m) (pcAt m 4)) (VALUE_NUMBER start))
                   (slot (stack m) (pcAt m 5)) (VALUE_NUMBER start)) by reflexivity.
    assert (Hcode : forall b : Byte.byte,
               bytecode (vm (advance (setInst (setStack (setStack m2 (pcAt m 4) (VALUE_NUMBER start))
                                       (pcAt m 5) (VALUE_NUMBER start)) offset b) 8)) =
               upd (bytecode (vm m)) (pc m + offset) b) by reflexivity.
    assert (Hstk : forall b : Byte.byte,
               stack (advance (setInst (setStack (setStack m2 (pcAt m 4) (VALUE_NUMBER start))
                                       (pcAt m 5) (VALUE_NUMBER start)) offset b) 8) = stack m)
      by reflexivity.
    destruct (F64.ltb start end_); unfold stackAt; rewrite Hmem, Hcode, Hstk.
    all: split; [ destruct (Z.eq_dec (pcAt m 4) (pcAt m 5)) as [E | E];
                  [ rewrite E; now rewrite upd_same
                  | rewrite upd_other by (intros F; apply E; now apply slot_inj in F);
                    now rewrite upd_same ] | ].
    all: split; [ now rewrite upd_same | ].
    all: split; [ intros H4 H5;
                  rewrite !upd_other by (intros F; apply slot_inj in F; congruence);
                  unfold m2, setStack, with_vm; cbn [pc stack vm stackMem set_stackMem];
                  now rewrite upd_same | ].
    all: split; [ now rewrite upd_same | intros a Ha; now apply upd_other ].
Qed.

End ForRange.

Lemma ForRangeInit_skips_or_enters_witness :
  execOp Demo.host CodeForRangeInit (Demo.forRangeInit Demo.d1 Demo.d1 (F64.neg Demo.d1)) =
  Next (advance (setStack (setStack (Demo.forRangeInit Demo.d1 Demo.d1 (F64.neg Demo.d1))
                                    1 Demo.d1) 2 Demo.d1) 17).
Proof.
  exact (proj1 (proj1 (proj2 (ForRangeInit_skips_or_enters Demo.host
           (Demo.forRangeInit Demo.d1 Demo.d1 (F64.neg Demo.d1)))) eq_refl)).
Defined.

(** C9 as stated has pc advance by the 16-bit offset when start equals
    end.  With start = end = 1.0 and the offset 10, pc moves from 1000
    to 1017, not to 1010. *)
Lemma ForRangeInit_skip_not_by_offset :
  ~ (forall (host : Host) (m : Machine),
       F64.eqb (toF64 host (vm m) (stackAt m (pcAt m 1)))
               (toF64 host (vm m) (stackAt m (pcAt m 2))) = true ->
       exists m1, execOp host CodeForRangeInit m = Next m1 /\
                  pc m1 = pc m + READ_U16 m 6).
Proof.
  intros H.
  destruct (H Demo.host (Demo.forRangeInit Demo.d1 Demo.d1 Demo.d1) eq_refl)
    as (m1 & He & Hp).
  cbn [execOp] in He.
  rewrite (op_ForRangeInit_skip Demo.host (Demo.forRangeInit Demo.d1 Demo.d1 Demo.d1) eq_refl) in He.
  injection He as <-.
  vm_compute in Hp. discriminate.
Qed.

Example ex_ForRangeInit_ascending :
  exists m1,
    execOp Demo.host CodeForRangeInit (Demo.forRangeInit Demo.d0 Demo.d5 (F64.neg Demo.d1)) = Next m1 /\
    pc m1 = 1008 /\ decodeOp (bytecode (vm m1) 1010) = Some CodeForRange /\
    map (fun k => stackAt m1 k) [0; 1; 2; 3; 4] = [Demo.d0; Demo.d5; Demo.d1; Demo.d0; Demo.d0].
Proof. eexists. repeat split. Qed.

Example ex_ForRangeInit_descending :
  exists m1,
    execOp Demo.host CodeForRangeInit (Demo.forRangeInit Demo.d5 Demo.d0 Demo.d1) = Next m1 /\
    pc m1 = 1008 /\ decodeOp (bytecode (vm m1) 1010) = Some CodeForRangeReverse /\
    map (fun k => stackAt m1 k) [0; 1; 2; 3; 4] = [Demo.d5; Demo.d0; Demo.d1; Demo.d5; Demo.d5].
Proof. eexists. repeat split. Qed.

(** ** Further evaluations *)

(** A tagged, non-pointer word with tag 0 and a payload passes none of
    the seven tests: [VALUE_IS_NONE] compares the whole word. *)
Example ex_tag0_with_payload :
  map (fun test => test 0x7ffc000000000001)
      [VALUE_IS_NUMBER; VALUE_IS_NONE; VALUE_IS_BOOLEAN; VALUE_IS_INTEGER;
       VALUE_IS_ERROR; VALUE_IS_POINTER; VALUE_IS_OTHER_PRIMITIVE] =
  [false; false; false; false; false; false; false].
Proof. reflexivity. Qed.

Example ex_SetInitN_two_locals :
  exists m1,
    execOp Demo.host CodeSetInitN (Demo.setInitN Byte.x02) = Next m1 /\
    pc m1 = 1004 /\
    map (fun k => stackAt m1 k) [0; 1; 2; 3; 4] = [1; 2; VALUE_NONE; VALUE_NONE; 5].
Proof. eexists. repeat split. Qed.

Example ex_SetInitN_wraps :
  execOp Demo.host CodeSetInitN (Demo.setInitN Byte.xfe) = Hang (Demo.setInitN Byte.xfe) /\
  exists m1, execOp Demo.host CodeSetInitN (Demo.setInitN Byte.xfd) = Next m1 /\ pc m1 = 1255.
Proof. split; [reflexivity | eexists; split; reflexivity]. Qed.

Example ex_dispatch_call_and_return :
  exists m1,
    dispatch Demo.host 1 (Demo.callFuncIC 16) = Next m1 /\
    pc m1 = 1234 /\ stack m1 = 2040 /\
    execOp Demo.host CodeRet1 m1 = Next (mkMachine 1011 2000 (vm m1)).
Proof. eexists. repeat split. Qed.

(** * Further properties of the code *)

(** ** Encodings *)

Lemma VALUE_GET_TAG_VALUE_INTEGER (n : Z) :
  is_i32 n -> VALUE_GET_TAG (VALUE_INTEGER n) = TAG_INTEGER.
Proof.
  unfold is_i32. intros H.
  rewrite VALUE_GET_TAG_hi32, hi32_VALUE_INTEGER. unfold hi32.
  destruct (Z.lt_ge_cases n 0).
  - rewrite to_u64_high32_neg by lia. reflexivity.
  - rewrite to_u64_high32_nonneg by lia. reflexivity.
Qed.

Lemma VALUE_IS_NUMBER_VALUE_INTEGER (n : Z) :
  is_i32 n -> VALUE_IS_NUMBER (VALUE_INTEGER n) = false.
Proof.
  unfold is_i32. intros H.
  rewrite VALUE_IS_NUMBER_hi32, hi32_VALUE_INTEGER. unfold hi32.
  destruct (Z.lt_ge_cases n 0).
  - rewrite to_u64_high32_neg by lia. reflexivity.
  - rewrite to_u64_high32_nonneg by lia. reflexivity.
Qed.

(** X1: an [int32_t] survives the integer constructor.  For every [n]
    of the type, negative or not, [VALUE_AS_INTEGER] reads [n] back from
    [VALUE_INTEGER n], the value is no number, and its tag field is
    [TAG_INTEGER]. *)
Theorem VALUE_INTEGER_roundtrip (n : Z) :
  is_i32 n ->
  VALUE_AS_INTEGER (VALUE_INTEGER n) = n /\
  VALUE_IS_NUMBER (VALUE_INTEGER n) = false /\
  VALUE_GET_TAG (VALUE_INTEGER n) = TAG_INTEGER.
Proof.
  intros H. split; [ | split ].
  - now apply VALUE_AS_INTEGER_VALUE_INTEGER.
  - now apply VALUE_IS_NUMBER_VALUE_INTEGER.
  - now apply VALUE_GET_TAG_VALUE_INTEGER.
Qed.

Lemma VALUE_INTEGER_roundtrip_witness :
  VALUE_AS_INTEGER (VALUE_INTEGER (-2147483648)) = -2147483648 /\
  VALUE_IS_NUMBER (VALUE_INTEGER (-2147483648)) = false /\
  VALUE_GET_TAG (VALUE_INTEGER (-2147483648)) = TAG_INTEGER.
Proof.
  apply (VALUE_INTEGER_roundtrip (-2147483648)). unfold is_i32. lia.
Defined.

Lemma land_below_shifted_mask (a c n : Z) :
  0 <= n -> 0 <= a < 2 ^ n -> Z.land a (Z.shiftl c n) = 0.
Proof.
  intros Hn Ha. rewrite land_shiftl_mask by assumption.
  rewrite Z.shiftr_div_pow2 by assumption.
  rewrite Z.div_small by assumption.
  rewrite Z.land_0_l. apply Z.shiftl_0_l.
Qed.

(** X2: the address in a pointer value is its low 50 bits.
    [VALUE_AS_HEAPOBJECT] of a 64-bit word is below [2^50]; a word that
    passes [VALUE_IS_POINTER] is [POINTER_MASK] or-ed with that address;
    and every address below [2^50] or-ed into [POINTER_MASK] is a
    pointer that gives the address back. *)
Theorem VALUE_AS_HEAPOBJECT_low50 (v : Value) :
  0 <= v < 2 ^ 64 ->
  0 <= VALUE_AS_HEAPOBJECT v < 2 ^ 50 /\
  (VALUE_IS_POINTER v = true -> v = Z.lor POINTER_MASK (VALUE_AS_HEAPOBJECT v)) /\
  (forall a, 0 <= a < 2 ^ 50 ->
     VALUE_IS_POINTER (Z.lor POINTER_MASK a) = true /\
     VALUE_AS_HEAPOBJECT (Z.lor POINTER_MASK a) = a).
Proof.
  intros Hv.
  assert (Hlow : forall x, VALUE_AS_HEAPOBJECT x = x mod 2 ^ 50).
  { intros x. unfold VALUE_AS_HEAPOBJECT.
    change NOT_POINTER_MASK with (Z.ones 50). apply Z.land_ones. lia. }
  split; [rewrite Hlow; apply Z.mod_pos_bound; lia | ].
  split.
  - unfold VALUE_IS_POINTER, VALUE_AS_HEAPOBJECT. intros Hp.
    apply Z.eqb_eq in Hp.
    replace (Z.lor POINTER_MASK (Z.land v NOT_POINTER_MASK))
      with (Z.lor (Z.land v POINTER_MASK) (Z.land v NOT_POINTER_MASK))
      by (now rewrite Hp).
    rewrite <- Z.land_lor_distr_r.
    change (Z.lor POINTER_MASK NOT_POINTER_MASK) with (Z.ones 64).
    rewrite Z.land_ones by lia. symmetry. apply Z.mod_small. lia.
  - intros a Ha. split.
    + unfold VALUE_IS_POINTER. rewrite Z.land_lor_distr_l.
      change POINTER_MASK with (Z.shiftl 0x3fff 50) at 3.
      rewrite land_below_shifted_mask by lia.
      rewrite Z.lor_0_r, Z.land_diag. apply Z.eqb_refl.
    + rewrite Hlow.
      change POINTER_MASK with (Z.shiftl 0x3fff 50).
      rewrite <- Z.land_ones by lia.
      rewrite Z.land_lor_distr_l.
      rewrite (Z.land_comm (Z.shiftl 0x3fff 50)).
      change (Z.land (Z.ones 50) (Z.shiftl 0x3fff 50)) with 0.
      rewrite Z.lor_0_l, Z.land_ones by lia. apply Z.mod_small. lia.
Qed.

Lemma VALUE_AS_HEAPOBJECT_low50_witness :
  VALUE_IS_POINTER Demo.objRef = true /\
  VALUE_AS_HEAPOBJECT Demo.objRef = Demo.OBJ.
Proof.
  assert (H : 0 <= Demo.objRef < 2 ^ 64)
    by (split; [vm_compute; discriminate | reflexivity]).
  apply (proj2 (proj2 (VALUE_AS_HEAPOBJECT_low50 Demo.objRef H)) Demo.OBJ).
  split; [vm_compute; discriminate | reflexivity].
Defined.

Lemma land_le_l (a b : Z) : 0 <= a -> Z.land a b <= a.
Proof.
  intros Ha.
  pose proof (Z.add_lor_land (Z.land a b) (Z.ldiff a b)) as H.
  assert (Hl : Z.lor (Z.land a b) (Z.ldiff a b) = a).
  { apply Z.bits_inj'. intros i Hi.
    rewrite Z.lor_spec, Z.land_spec, Z.ldiff_spec.
    now destruct (Z.testbit a i), (Z.testbit b i). }
  assert (Hz : Z.land (Z.land a b) (Z.ldiff a b) = 0).
  { apply Z.bits_inj'. intros i Hi.
    rewrite !Z.land_spec, Z.ldiff_spec, Z.bits_0.
    now destruct (Z.testbit a i), (Z.testbit b i). }
  assert (Hn : 0 <= Z.ldiff a b) by (apply Z.ldiff_nonneg; now left).
  lia.
Qed.

(** X3: NaN boxing takes no real number for a tagged value.  A
    pattern that is not a NaN, that is every finite double and both
    infinities, passes [VALUE_IS_NUMBER] and fails [VALUE_IS_POINTER];
    so does the NaN with only the top mantissa bit set, which passes the
    first test and fails the second as well. *)
Theorem non_nan_double_is_number (d : Z) :
  F64.is_nan d = false ->
  VALUE_IS_NUMBER d = true /\ VALUE_IS_POINTER d = false /\
  VALUE_IS_NUMBER 0x7ff8000000000000 = true /\
  VALUE_IS_POINTER 0x7ff8000000000000 = false.
Proof.
  intros Hnan.
  unfold F64.is_nan in Hnan. apply Z.ltb_ge in Hnan.
  assert (Ht : Z.land d TAGGED_VALUE_MASK <> TAGGED_VALUE_MASK).
  { intros E.
    assert (Hm : Z.land (F64.magnitude d) TAGGED_VALUE_MASK = TAGGED_VALUE_MASK).
    { unfold F64.magnitude. rewrite <- Z.land_assoc.
      change (Z.land F64.MAGNITUDE_MASK TAGGED_VALUE_MASK) with TAGGED_VALUE_MASK.
      exact E. }
    pose proof (land_le_l (F64.magnitude d) TAGGED_VALUE_MASK
                          (F64_magnitude_nonneg d)) as Hle.
    rewrite Hm in Hle. unfold TAGGED_VALUE_MASK, F64.INF_BITS in *. lia. }
  split; [ | split; [ | split; reflexivity ] ].
  - unfold VALUE_IS_NUMBER. now rewrite (proj2 (Z.eqb_neq _ _) Ht).
  - unfold VALUE_IS_POINTER. apply Z.eqb_neq. intros E. apply Ht.
    pose proof (f_equal (fun z => Z.land z TAGGED_VALUE_MASK) E) as E1.
    cbv beta in E1. rewrite <- Z.land_assoc in E1. exact E1.
Qed.

Lemma non_nan_double_is_number_witness :
  VALUE_IS_NUMBER (F64.of_int (-128)) = true /\
  VALUE_IS_POINTER (F64.of_int (-128)) = false /\
  VALUE_IS_NUMBER 0x7ff8000000000000 = true /\
  VALUE_IS_POINTER 0x7ff8000000000000 = false.
Proof.
  apply (non_nan_double_is_number (F64.of_int (-128))). reflexivity.
Defined.

(** ** Type ids *)




Section TypeIds.

Context (host : Host).


End TypeIds.


(** ** Operands in the instruction stream *)

Lemma lor_disjoint_add (x c n : Z) :
  0 <= n -> 0 <= x < 2 ^ n -> Z.lor x (c * 2 ^ n) = x + c * 2 ^ n.
Proof.
  intros Hn Hx.
  pose proof (Z.add_lor_land x (c * 2 ^ n)) as H.
  rewrite <- Z.shiftl_mul_pow2 in H by assumption.
  rewrite land_below_shifted_mask in H by assumption.
  rewrite <- Z.shiftl_mul_pow2 by assumption. lia.
Qed.

Lemma READ_little_endian_aux (m : Machine) (k : Z) :
  - 32768 <= READ_I16 m k /\ READ_I16 m k <= 32767.
Proof.
  unfold READ_I16, to_i16.
  pose proof (Z.mod_pos_bound (READ_U16 m k + 2 ^ 15) (2 ^ 16) ltac:(lia)). lia.
Qed.

(** X5: multi-byte operands are little-endian.  [READ_U16] is the first
    byte plus 256 times the second, [READ_I16] is the same number read
    in two's complement, between -32768 and 32767, and [READ_U48] is the
    sum of six bytes weighted by the powers of 256, below [2^48]. *)
Theorem READ_little_endian (m : Machine) (k : Z) :
  READ_U16 m k = pcAt m k + 256 * pcAt m (k + 1) /\
  READ_I16 m k = (if pcAt m (k + 1) <? 128 then READ_U16 m k
                  else READ_U16 m k - 65536) /\
  - 32768 <= READ_I16 m k <= 32767 /\
  READ_U48 m k = pcAt m k + 256 * pcAt m (k + 1) + 256 ^ 2 * pcAt m (k + 2)
                 + 256 ^ 3 * pcAt m (k + 3) + 256 ^ 4 * pcAt m (k + 4)
                 + 256 ^ 5 * pcAt m (k + 5) /\
  0 <= READ_U48 m k < 2 ^ 48.
Proof.
  pose proof (pcAt_range m k) as H0.
  pose proof (pcAt_range m (k + 1)) as H1.
  pose proof (pcAt_range m (k + 2)) as H2.
  pose proof (pcAt_range m (k + 3)) as H3.
  pose proof (pcAt_range m (k + 4)) as H4.
  pose proof (pcAt_range m (k + 5)) as H5.
  assert (E16 : READ_U16 m k = pcAt m k + 256 * pcAt m (k + 1)).
  { unfold READ_U16. rewrite to_u16_id by lia.
    rewrite Z.shiftl_mul_pow2 by lia.
    rewrite (lor_disjoint_add (pcAt m k) (pcAt m (k + 1)) 8) by lia. lia. }
  assert (E48 : READ_U48 m k =
                pcAt m k + 256 * pcAt m (k + 1) + 256 ^ 2 * pcAt m (k + 2)
                + 256 ^ 3 * pcAt m (k + 3) + 256 ^ 4 * pcAt m (k + 4)
                + 256 ^ 5 * pcAt m (k + 5)).
  { unfold READ_U48.
    replace (k + 1 + 1) with (k + 2) by lia.
    rewrite !Z.shiftl_mul_pow2 by lia.
    set (b0 := pcAt m k) in *. set (b1 := pcAt m (k + 1)) in *.
    set (b2 := pcAt m (k + 2)) in *. set (b3 := pcAt m (k + 3)) in *.
    set (b4 := pcAt m (k + 4)) in *. set (b5 := pcAt m (k + 5)) in *.
    replace (b5 * 2 ^ 40) with (b5 * 2 ^ 40) by reflexivity.
    rewrite (lor_disjoint_add (b4 * 2 ^ 32) b5 40) by lia.
    replace (b4 * 2 ^ 32 + b5 * 2 ^ 40) with ((b4 + 256 * b5) * 2 ^ 32) by lia.
    rewrite (lor_disjoint_add (b3 * 2 ^ 24) (b4 + 256 * b5) 32) by lia.
    replace (b3 * 2 ^ 24 + (b4 + 256 * b5) * 2 ^ 32)
      with ((b3 + 256 * b4 + 65536 * b5) * 2 ^ 24) by lia.
    rewrite (lor_disjoint_add (b2 * 2 ^ 16) (b3 + 256 * b4 + 65536 * b5) 24) by lia.
    replace (b2 * 2 ^ 16 + (b3 + 256 * b4 + 65536 * b5) * 2 ^ 24)
      with ((b2 + 256 * b3 + 65536 * b4 + 16777216 * b5) * 2 ^ 16) by lia.
    rewrite (lor_disjoint_add (b1 * 2 ^ 8)
               (b2 + 256 * b3 + 65536 * b4 + 16777216 * b5) 16) by lia.
    replace (b1 * 2 ^ 8 + (b2 + 256 * b3 + 65536 * b4 + 16777216 * b5) * 2 ^ 16)
      with ((b1 + 256 * b2 + 65536 * b3 + 16777216 * b4 + 4294967296 * b5) * 2 ^ 8)
      by lia.
    rewrite (lor_disjoint_add b0
               (b1 + 256 * b2 + 65536 * b3 + 16777216 * b4 + 4294967296 * b5) 8)
      by lia.
    lia. }
  assert (E16i : READ_I16 m k = (if pcAt m (k + 1) <? 128 then READ_U16 m k
                                 else READ_U16 m k - 65536)).
  { unfold READ_I16, to_i16. rewrite E16.
    destruct (Z.ltb_spec (pcAt m (k + 1)) 128).
    - rewrite Z.mod_small by lia. lia.
    - rewrite <- (Z_mod_plus_full _ (-1) (2 ^ 16)).
      rewrite Z.mod_small by lia. lia. }
  split; [exact E16 | ]. split; [exact E16i | ].
  split.
  { rewrite E16i, E16. destruct (Z.ltb_spec (pcAt m (k + 1)) 128); lia. }
  split; [exact E48 | ].
  rewrite E48. lia.
Qed.

(** ** Jumps *)

Section Jumps.

Context (host : Host).

(** X6: how far a jump can go.  [Jump] and [JumpNotNone] move pc by a
    signed 16-bit offset, so between 32768 bytes back and 32767 bytes
    forward, and [JumpNotNone] takes the offset exactly when the operand
    is not None; [JumpNotCond] reads its offset unsigned and never moves
    pc backward.  None of the three changes anything but pc. *)
Theorem jump_ranges (m : Machine) :
  (exists d, execOp host CodeJump m = Next (advance m d) /\
             d = READ_I16 m 1 /\ - 32768 <= d <= 32767) /\
  (exists d, execOp host CodeJumpNotNone m = Next (advance m d) /\
             d = (if VALUE_IS_NONE (stackAt m (pcAt m 3)) then 4 else READ_I16 m 1) /\
             - 32768 <= d <= 32767) /\
  (exists d, execOp host CodeJumpNotCond m = Next (advance m d) /\
             0 <= d <= 65535).
Proof.
  destruct (READ_little_endian_aux m 1) as (Hlo & Hhi).
  pose proof (READ_U16_range m 1) as Hu.
  split; [ | split ].
  - exists (READ_I16 m 1). repeat split; assumption.
  - exists (if VALUE_IS_NONE (stackAt m (pcAt m 3)) then 4 else READ_I16 m 1).
    split; [ | split; [reflexivity | ] ].
    + cbn [execOp]. unfold op_JumpNotNone.
      now destruct (VALUE_IS_NONE (stackAt m (pcAt m 3))).
    + destruct (VALUE_IS_NONE (stackAt m (pcAt m 3))); lia.
  - cbn [execOp]. unfold op_JumpNotCond.
    rewrite to_u16_id by assumption.
    match goal with |- context [if negb ?c then _ else _] => destruct c end;
      cbn [negb]; eexists; (split; [reflexivity | lia]).
Qed.

End Jumps.

(** ** Register instructions *)

Lemma setStack_frame (m : Machine) (dst val len : Z) :
  let m1 := advance (setStack m dst val) len in
  stack m1 = stack m /\ pc m1 = pc m + len /\
  stackAt m1 dst = val /\
  heap (vm m1) = heap (vm m) /\ bytecode (vm m1) = bytecode (vm m) /\
  refCounts (vm m1) = refCounts (vm m) /\
  (forall a, a <> slot (stack m) dst -> stackMem (vm m1) a = stackMem (vm m) a).
Proof.
  intros m1. unfold m1, advance, setStack, with_pc, with_vm, stackAt.
  cbn [pc stack vm heap bytecode refCounts stackMem set_stackMem].
  repeat split.
  - apply upd_same.
  - intros a Ha. now apply upd_other.
Qed.

Section RegisterOps.

Context (host : Host).

(** X7: the instructions that only compute on registers write one
    register and nothing else.  Each of [ConstOp], [ConstI8],
    [ConstI8Int], [True], [False], [None], [Copy], [AddInt], [SubInt]
    and [LessInt] always continues with the next instruction, 2 to 4
    bytes further, in the same frame; it leaves the heap, the bytecode
    and the global count alone, and changes at most the stack slot of
    its destination register, one of the first 256 of the frame. *)
Theorem register_ops_write_one_slot (m : Machine) :
  Forall (fun op =>
            exists m1 dst,
              execOp host op m = Next m1 /\ 0 <= dst < 256 /\
              stack m1 = stack m /\ pc m + 2 <= pc m1 <= pc m + 4 /\
              heap (vm m1) = heap (vm m) /\
              bytecode (vm m1) = bytecode (vm m) /\
              refCounts (vm m1) = refCounts (vm m) /\
              (forall a, a <> slot (stack m) dst ->
                         stackMem (vm m1) a = stackMem (vm m) a))
         [CodeConstOp; CodeConstI8; CodeConstI8Int; CodeTrue; CodeFalse;
          CodeNone; CodeCopy; CodeAddInt; CodeSubInt; CodeLessInt].
Proof.
  repeat apply Forall_cons; try apply Forall_nil.
  all: cbn [execOp];
    unfold op_ConstOp, op_ConstI8, op_ConstI8Int, op_True, op_False, op_None,
           op_Copy, op_AddInt, op_SubInt, op_LessInt;
    match goal with
    | |- exists m1 dst, Next (advance (setStack ?M ?d ?v) ?len) = Next m1 /\ _ =>
        exists (advance (setStack M d v) len); exists d;
        destruct (setStack_frame M d v len) as (Hs & Hp & _ & Hh & Hb & Hr & Hm);
        pose proof (pcAt_range M 1); pose proof (pcAt_range M 2);
        pose proof (pcAt_range M 3);
        repeat split; try assumption; try lia
    end.
Qed.

(** What [JumpNotCond] does on a register that holds [VALUE_BOOLEAN b]. *)
Lemma JumpNotCond_on_VALUE_BOOLEAN (m : Machine) (b : bool) :
  stackAt m (pcAt m 3) = VALUE_BOOLEAN b ->
  execOp host CodeJumpNotCond m =
  Next (advance m (if b then 4 else READ_U16 m 1)).
Proof.
  intros E.
  pose proof (JumpNotCond_boolean host m) as H. cbv zeta in H.
  rewrite E in H. rewrite H by (now destruct b).
  now destruct b.
Qed.

(** X8: a comparison followed by a conditional jump.  [LessInt] stores
    a Boolean that reads back as the signed 32-bit comparison of the
    two payloads, [True] and [False] store the two Boolean constants,
    and a [JumpNotCond] placed next that tests the register just
    written jumps by its offset exactly when that Boolean is false and
    otherwise goes on 4 bytes further. *)
Theorem boolean_then_JumpNotCond (m : Machine) :
  let less := VALUE_AS_INTEGER (stackAt m (pcAt m 1))
              <? VALUE_AS_INTEGER (stackAt m (pcAt m 2)) in
  Forall (fun '(op, len, r, b) =>
            let m1 := advance (setStack m r (VALUE_BOOLEAN b)) len in
            execOp host op m = Next m1 /\
            VALUE_IS_BOOLEAN (stackAt m1 r) = true /\
            VALUE_AS_BOOLEAN (stackAt m1 r) = b /\
            (pcAt m1 3 = r ->
             execOp host CodeJumpNotCond m1 =
             Next (advance m1 (if b then 4 else READ_U16 m1 1))))
         [(CodeLessInt, 4, pcAt m 3, less);
          (CodeTrue, 2, pcAt m 1, true);
          (CodeFalse, 2, pcAt m 1, false)].
Proof.
  intros less.
  assert (Hgen : forall len r b,
             let m1 := advance (setStack m r (VALUE_BOOLEAN b)) len in
             VALUE_IS_BOOLEAN (stackAt m1 r) = true /\
             VALUE_AS_BOOLEAN (stackAt m1 r) = b /\
             (pcAt m1 3 = r ->
              execOp host CodeJumpNotCond m1 =
              Next (advance m1 (if b then 4 else READ_U16 m1 1)))).
  { intros len r b m1.
    destruct (setStack_frame m r (VALUE_BOOLEAN b) len) as (_ & _ & Hv & _).
    fold m1 in Hv. rewrite Hv.
    split; [now destruct b | ]. split; [now destruct b | ].
    intros Hr. apply JumpNotCond_on_VALUE_BOOLEAN. now rewrite Hr. }
  repeat apply Forall_cons; try apply Forall_nil.
  - split; [reflexivity | apply Hgen].
  - split; [reflexivity | apply Hgen].
  - split; [reflexivity | apply Hgen].
Qed.

End RegisterOps.

Lemma boolean_then_JumpNotCond_witness :
  exists m1,
    execOp Demo.host CodeLessInt
      (Demo.machine [Byte.x53; Byte.x00; Byte.x01; Byte.x02;
                     Byte.x14; Byte.x0a; Byte.x00; Byte.x02]
                    [VALUE_INTEGER 3; 0xffffffffffffffff; 0] 16 Demo.noHeap) = Next m1 /\
    stackAt m1 2 = VALUE_FALSE /\
    execOp Demo.host CodeJumpNotCond m1 = Next (advance m1 10).
Proof.
  pose proof (boolean_then_JumpNotCond Demo.host
    (Demo.machine [Byte.x53; Byte.x00; Byte.x01; Byte.x02;
                   Byte.x14; Byte.x0a; Byte.x00; Byte.x02]
                  [VALUE_INTEGER 3; 0xffffffffffffffff; 0] 16 Demo.noHeap)) as H.
  cbv zeta in H. apply Forall_inv in H. cbv beta iota zeta in H.
  destruct H as (He & _ & _ & Hj).
  eexists. split; [exact He | ]. split; [reflexivity | ].
  exact (Hj eq_refl).
Defined.

(** ** Counting references up and down *)

Lemma RetainedCommon_eta (o : RetainedCommon) :
  mkRetainedCommon (typeId o) (rc o) = o.
Proof. now destruct o. Qed.

Section RetainRelease.

Context (host : Host).

(** The fields of the VM after a retain, and after a release that does
    not free. *)
Lemma retain_fields (v : VM) (val : Value) :
  VALUE_IS_POINTER val = true ->
  let obj := VALUE_AS_HEAPOBJECT val in
  let v1 := retain host v val in
  heap v1 = upd (heap v) obj (set_rc (heap v obj) (to_u32 (rc (heap v obj) + 1))) /\
  refCounts v1 = (if TRACK_GLOBAL_RC host then to_u64 (refCounts v + 1)
                  else refCounts v) /\
  stackMem v1 = stackMem v /\ bytecode v1 = bytecode v /\
  curPc v1 = curPc v /\ curStack v1 = curStack v /\
  stackEndPtr v1 = stackEndPtr v /\ constPtr v1 = constPtr v.
Proof.
  intros Hp obj v1. unfold v1, retain. rewrite Hp. fold obj.
  destruct (TRACK_GLOBAL_RC host); repeat split.
Qed.

Lemma release_fields (v : VM) (val : Value) :
  VALUE_IS_POINTER val = true ->
  let obj := VALUE_AS_HEAPOBJECT val in
  to_u32 (rc (heap v obj) - 1) <> 0 ->
  let v1 := release host v val in
  heap v1 = upd (heap v) obj (set_rc (heap v obj) (to_u32 (rc (heap v obj) - 1))) /\
  refCounts v1 = (if TRACK_GLOBAL_RC host then to_u64 (refCounts v - 1)
                  else refCounts v) /\
  stackMem v1 = stackMem v /\ bytecode v1 = bytecode v /\
  curPc v1 = curPc v /\ curStack v1 = curStack v /\
  stackEndPtr v1 = stackEndPtr v /\ constPtr v1 = constPtr v.
Proof.
  intros Hp obj Hnz v1. unfold v1, release. rewrite Hp. fold obj.
  destruct (TRACK_GLOBAL_RC host);
    cbn [heap set_heap set_refCounts]; rewrite upd_same; cbn [rc set_rc];
    rewrite (proj2 (Z.eqb_neq _ 0) Hnz); repeat split.
Qed.

(** X9: a retain and a release of the same reference cancel.  For a
    pointer to an object whose count is a non-zero [uint32_t], with the
    global count a [size_t], releasing after retaining gives back every
    header, the global count, the stack and the bytecode as they were,
    and the object is not freed; the same holds for retaining after
    releasing when the count is at least 2. *)
Theorem retain_release_cancel (v : VM) (val : Value) :
  let obj := VALUE_AS_HEAPOBJECT val in
  VALUE_IS_POINTER val = true ->
  0 < rc (heap v obj) < 2 ^ 32 ->
  0 <= refCounts v < 2 ^ 64 ->
  let same (v2 : VM) :=
    (forall o, heap v2 o = heap v o) /\ refCounts v2 = refCounts v /\
    stackMem v2 = stackMem v /\ bytecode v2 = bytecode v /\
    curPc v2 = curPc v /\ curStack v2 = curStack v /\
    stackEndPtr v2 = stackEndPtr v /\ constPtr v2 = constPtr v in
  same (release host (retain host v val) val) /\
  (2 <= rc (heap v obj) -> same (retain host (release host v val) val)).
Proof.
  intros obj Hp Hrc Hg same.
  assert (Hup : to_u32 (to_u32 (rc (heap v obj) + 1) - 1) = rc (heap v obj)).
  { unfold to_u32. rewrite Zminus_mod_idemp_l.
    replace (rc (heap v obj) + 1 - 1) with (rc (heap v obj)) by lia.
    apply Z.mod_small. lia. }
  assert (Hdown : to_u32 (to_u32 (rc (heap v obj) - 1) + 1) = rc (heap v obj)).
  { unfold to_u32. rewrite Zplus_mod_idemp_l.
    replace (rc (heap v obj) - 1 + 1) with (rc (heap v obj)) by lia.
    apply Z.mod_small. lia. }
  assert (Hgup : to_u64 (to_u64 (refCounts v + 1) - 1) = refCounts v).
  { unfold to_u64. rewrite Zminus_mod_idemp_l.
    replace (refCounts v + 1 - 1) with (refCounts v) by lia.
    apply Z.mod_small. lia. }
  assert (Hgdown : to_u64 (to_u64 (refCounts v - 1) + 1) = refCounts v).
  { unfold to_u64. rewrite Zplus_mod_idemp_l.
    replace (refCounts v - 1 + 1) with (refCounts v) by lia.
    apply Z.mod_small. lia. }
  assert (Hpt : forall (h1 : Z -> RetainedCommon) n1 o,
             h1 = upd (heap v) obj (set_rc (heap v obj) n1) ->
             upd h1 obj (set_rc (h1 obj) (rc (heap v obj))) o = heap v o).
  { intros h1 n1 o ->. destruct (Z.eq_dec o obj) as [-> | Ho].
    - rewrite !upd_same. unfold set_rc. cbn [typeId]. apply RetainedCommon_eta.
    - now rewrite !upd_other by assumption. }
  split.
  - destruct (retain_fields v val Hp)
      as (Hh1 & Hr1 & Hs1 & Hb1 & Hc1 & Hk1 & He1 & Hq1).
    fold obj in Hh1.
    assert (Hrc1 : rc (heap (retain host v val) obj) = to_u32 (rc (heap v obj) + 1)).
    { rewrite Hh1, upd_same. reflexivity. }
    destruct (release_fields (retain host v val) val Hp)
      as (Hh2 & Hr2 & Hs2 & Hb2 & Hc2 & Hk2 & He2 & Hq2).
    { fold obj. rewrite Hrc1, Hup. lia. }
    fold obj in Hh2. rewrite Hrc1, Hup in Hh2.
    unfold same. rewrite Hh2, Hr2, Hr1, Hs2, Hs1, Hb2, Hb1, Hc2, Hc1, Hk2, Hk1,
                         He2, He1, Hq2, Hq1.
    split; [intros o; now apply (Hpt _ (to_u32 (rc (heap v obj) + 1))) | ].
    split; [destruct (TRACK_GLOBAL_RC host); [exact Hgup | reflexivity] | ].
    repeat split.
  - intros H2.
    assert (Hnz : to_u32 (rc (heap v obj) - 1) <> 0).
    { unfold to_u32. rewrite Z.mod_small by lia. lia. }
    destruct (release_fields v val Hp Hnz)
      as (Hh1 & Hr1 & Hs1 & Hb1 & Hc1 & Hk1 & He1 & Hq1).
    fold obj in Hh1.
    assert (Hrc1 : rc (heap (release host v val) obj) = to_u32 (rc (heap v obj) - 1)).
    { rewrite Hh1, upd_same. reflexivity. }
    destruct (retain_fields (release host v val) val Hp)
      as (Hh2 & Hr2 & Hs2 & Hb2 & Hc2 & Hk2 & He2 & Hq2).
    fold obj in Hh2. rewrite Hrc1, Hdown in Hh2.
    unfold same. rewrite Hh2, Hr2, Hr1, Hs2, Hs1, Hb2, Hb1, Hc2, Hc1, Hk2, Hk1,
                         He2, He1, Hq2, Hq1.
    split; [intros o; now apply (Hpt _ (to_u32 (rc (heap v obj) - 1))) | ].
    split; [destruct (TRACK_GLOBAL_RC host); [exact Hgdown | reflexivity] | ].
    repeat split.
Qed.

(** X10: on registers that hold no reference the counting copies are
    plain copies.  [CopyReleaseDst] with a destination that holds no
    pointer, and [CopyRetainSrc] with a source that holds no pointer, do
    exactly what [Copy] does; and [Release] of such a register only
    advances pc by 2. *)
Theorem counting_copies_on_primitives (m : Machine) :
  (VALUE_IS_POINTER (stackAt m (pcAt m 2)) = false ->
   execOp host CodeCopyReleaseDst m = execOp host CodeCopy m) /\
  (VALUE_IS_POINTER (stackAt m (pcAt m 1)) = false ->
   execOp host CodeCopyRetainSrc m = execOp host CodeCopy m) /\
  (VALUE_IS_POINTER (stackAt m (pcAt m 1)) = false ->
   execOp host CodeRelease m = Next (advance m 2)).
Proof.
  destruct m as [p s v].
  split; [ | split ]; intros Hp; cbn [execOp].
  - unfold op_CopyReleaseDst, op_Copy, release. now rewrite Hp.
  - unfold op_CopyRetainSrc, op_Copy, retain. now rewrite Hp.
  - unfold op_Release, release. now rewrite Hp.
Qed.

End RetainRelease.

Lemma retain_release_cancel_witness :
  heap (release Demo.host
          (retain Demo.host (vm (Demo.ret1 0 1 0 (Demo.oneObject 1))) Demo.objRef)
          Demo.objRef) Demo.OBJ = mkRetainedCommon 30 1 /\
  refCounts (release Demo.host
               (retain Demo.host (vm (Demo.ret1 0 1 0 (Demo.oneObject 1))) Demo.objRef)
               Demo.objRef) = 1.
Proof.
  assert (H1 : 0 < rc (heap (vm (Demo.ret1 0 1 0 (Demo.oneObject 1)))
                            (VALUE_AS_HEAPOBJECT Demo.objRef)) < 2 ^ 32)
    by (split; reflexivity).
  assert (H2 : 0 <= refCounts (vm (Demo.ret1 0 1 0 (Demo.oneObject 1))) < 2 ^ 64)
    by (split; [vm_compute; discriminate | reflexivity]).
  destruct (proj1 (retain_release_cancel Demo.host
                     (vm (Demo.ret1 0 1 0 (Demo.oneObject 1))) Demo.objRef
                     eq_refl H1 H2)) as (Hh & Hg & _).
  split; [exact (Hh Demo.OBJ) | exact Hg].
Defined.

Lemma counting_copies_on_primitives_witness :
  execOp Demo.host CodeCopyReleaseDst
    (Demo.machine [Byte.x0a; Byte.x00; Byte.x01] [VALUE_INTEGER 7; VALUE_NONE] 16
                  Demo.noHeap) =
  Next (advance (setStack (Demo.machine [Byte.x0a; Byte.x00; Byte.x01]
                             [VALUE_INTEGER 7; VALUE_NONE] 16 Demo.noHeap)
                          1 (VALUE_INTEGER 7)) 3).
Proof.
  exact (proj1 (counting_copies_on_primitives Demo.host
                  (Demo.machine [Byte.x0a; Byte.x00; Byte.x01]
                                [VALUE_INTEGER 7; VALUE_NONE] 16 Demo.noHeap)) eq_refl).
Defined.

(** ** Initialising locals *)

Lemma setInitLoop_never_exits (bound : Z) (rounds : nat) :
  256 <= bound ->
  forall (m : Machine) (i : Z),
    0 <= i < 256 -> setInitLoop rounds m i bound = None.
Proof.
  intros Hb. induction rounds as [ | r IH]; intros m i Hi; cbn [setInitLoop].
  - now rewrite (proj2 (Z.ltb_lt i bound)) by lia.
  - rewrite (proj2 (Z.ltb_lt i bound)) by lia.
    apply IH. unfold to_u8. apply Z.mod_pos_bound. lia.
Qed.

Section Locals.

Context (host : Host).

(** X11: [SetInitN] with up to 253 locals sets the slots 2, 3, ... of
    the frame to None, as many as it has locals, and nothing else: the
    operand bytes that follow the count are skipped without being read,
    pc ends 2 plus the count further, and every other slot, the heap
    and the bytecode are unchanged. *)
Theorem SetInitN_clears_slots_from_2 (m : Machine) :
  pcAt m 1 <= 253 ->
  exists m1,
    execOp host CodeSetInitN m = Next m1 /\
    pc m1 = pc m + 2 + pcAt m 1 /\ stack m1 = stack m /\
    heap (vm m1) = heap (vm m) /\ bytecode (vm m1) = bytecode (vm m) /\
    refCounts (vm m1) = refCounts (vm m) /\
    forall k, stackAt m1 k =
              if (2 <=? k) && (k <? 2 + pcAt m 1) then VALUE_NONE else stackAt m k.
Proof. exact (op_SetInitN_exits m). Qed.

(** X12: [SetInitN] with two or more locals erases the return link of
    its frame.  Slots 2 and 3, where a call saves the return pc and the
    caller's frame pointer, become None while slot 1 stays, so a [Ret1]
    in that frame, asked for one value and not final, continues at pc
    [VALUE_NONE] with the frame pointer [VALUE_NONE]. *)
Theorem SetInitN_erases_return_link (m : Machine) :
  2 <= pcAt m 1 <= 253 ->
  getByte (stackAt m 1) 0 = 1 ->
  Z.testbit (getByte (stackAt m 1) 1) 0 = false ->
  exists m1,
    execOp host CodeSetInitN m = Next m1 /\
    stackAt m1 1 = stackAt m 1 /\
    stackAt m1 2 = VALUE_NONE /\ stackAt m1 3 = VALUE_NONE /\
    execOp host CodeRet1 m1 = Next (mkMachine VALUE_NONE VALUE_NONE (vm m1)).
Proof.
  intros Hn Hreq Hfinal.
  destruct (op_SetInitN_exits m) as (m1 & He & _ & _ & _ & _ & _ & Hk); [lia | ].
  assert (H1 : stackAt m1 1 = stackAt m 1) by (rewrite Hk; reflexivity).
  assert (H2 : stackAt m1 2 = VALUE_NONE).
  { rewrite Hk. now rewrite (proj2 (Z.ltb_lt 2 (2 + pcAt m 1))) by lia. }
  assert (H3 : stackAt m1 3 = VALUE_NONE).
  { rewrite Hk. now rewrite (proj2 (Z.ltb_lt 3 (2 + pcAt m 1))) by lia. }
  exists m1. split; [exact He | ]. split; [exact H1 | ].
  split; [exact H2 | ]. split; [exact H3 | ].
  cbn [execOp]. rewrite (op_Ret1_keep host m1) by (now rewrite H1).
  cbv zeta. now rewrite H1, Hfinal, H2, H3.
Qed.

(** X13: [SetInitN] with 254 or 255 locals never ends.  Its counter is
    a [uint8_t] compared with [2 + numLocals], which is 256 or more, so
    the test of the loop holds after any number of rounds. *)
Theorem SetInitN_does_not_terminate (m : Machine) :
  254 <= pcAt m 1 ->
  (forall rounds, setInitLoop rounds m 2 (2 + pcAt m 1) = None) /\
  execOp host CodeSetInitN m = Hang m.
Proof.
  intros Hn.
  assert (H : forall rounds, setInitLoop rounds m 2 (2 + pcAt m 1) = None).
  { intros rounds. apply setInitLoop_never_exits; lia. }
  split; [exact H | ].
  cbn [execOp]. unfold op_SetInitN. now rewrite H.
Qed.

End Locals.

Lemma SetInitN_clears_slots_from_2_witness :
  exists m1,
    execOp Demo.host CodeSetInitN (Demo.setInitN Byte.x02) = Next m1 /\
    pc m1 = 1004 /\
    map (fun k => stackAt m1 k) [0; 1; 2; 3; 4] = [1; 2; VALUE_NONE; VALUE_NONE; 5].
Proof.
  destruct (SetInitN_clears_slots_from_2 Demo.host (Demo.setInitN Byte.x02))
    as (m1 & He & Hp & _ & _ & _ & _ & Hk).
  - vm_compute. discriminate.
  - exists m1. split; [exact He | ]. split; [exact Hp | ].
    cbn [map]. rewrite !Hk. reflexivity.
Defined.

Lemma SetInitN_erases_return_link_witness :
  exists m1,
    execOp Demo.host CodeSetInitN
      (Demo.machine [Byte.x36; Byte.x02; Byte.x04; Byte.x05]
                    [0; 1; 1234; 1968; 7; 7] 16 Demo.noHeap) = Next m1 /\
    execOp Demo.host CodeRet1 m1 = Next (mkMachine VALUE_NONE VALUE_NONE (vm m1)).
Proof.
  destruct (SetInitN_erases_return_link Demo.host
              (Demo.machine [Byte.x36; Byte.x02; Byte.x04; Byte.x05]
                            [0; 1; 1234; 1968; 7; 7] 16 Demo.noHeap))
    as (m1 & He & _ & _ & _ & Hr).
  - split; vm_compute; discriminate.
  - reflexivity.
  - reflexivity.
  - exists m1. split; [exact He | exact Hr].
Defined.

Lemma SetInitN_does_not_terminate_witness :
  execOp Demo.host CodeSetInitN (Demo.setInitN Byte.xff) = Hang (Demo.setInitN Byte.xff).
Proof.
  apply (SetInitN_does_not_terminate Demo.host (Demo.setInitN Byte.xff)).
  vm_compute. discriminate.
Defined.

(** ** Result codes *)

Lemma ResultCode_eqb_eq (a b : ResultCode) : ResultCode_eqb a b = true <-> a = b.
Proof. destruct a, b; cbn; split; intros H; try reflexivity; discriminate H. Qed.


Section ResultCodes.

Context (host : Host).


(** X15: a failure outside is returned at once.  When the operands of
    [Add] or [Sub] are not both numbers and the fallback reports a code
    other than Success, and when [zAllocList] or [zCallObjSym] does, the
    handler returns that code with the VM as the callee left it: it
    writes no register and leaves pc and the frame pointer on the
    failing instruction. *)
Theorem outside_failure_is_returned (m : Machine) :
  let left := stackAt m (pcAt m 1) in
  let right := stackAt m (pcAt m 2) in
  let recv := stackAt m (pcAt m 1 + pcAt m 2 + 4 - 1) in
  let failing (call : VM * ValueResult) (op : OpCode) :=
    code (snd call) <> RES_CODE_SUCCESS ->
    execOp host op m = Return (code (snd call)) (with_vm m (fst call)) in
  (VALUE_BOTH_NUMBERS left right = false ->
   failing (zEvalAddFallback host (vm m) left right) CodeAdd /\
   failing (zEvalSubFallback host (vm m) left right) CodeSub) /\
  failing (zAllocList host (vm m) (slot (stack m) (pcAt m 1)) (pcAt m 2)) CodeList /\
  (let call := zCallObjSym host (vm m) (pc m) (stack m) recv
                 (getTypeId host (vm m) recv) (pcAt m 4) (pcAt m 1) (pcAt m 2)
                 (pcAt m 3) in
   cos_code (snd call) <> RES_CODE_SUCCESS ->
   execOp host CodeCallObjSym m = Return (cos_code (snd call)) (with_vm m (fst call))).
Proof.
  intros left right recv failing.
  assert (Hneq : forall c, c <> RES_CODE_SUCCESS ->
                           ResultCode_eqb c RES_CODE_SUCCESS = false).
  { intros c Hc. destruct (ResultCode_eqb c RES_CODE_SUCCESS) eqn:E; [ | reflexivity].
    apply ResultCode_eqb_eq in E. contradiction. }
  split; [ | split ].
  - intros Hnum. split; intros Hc; cbn [execOp];
      unfold op_Add, op_Sub, op_arith; fold left right; rewrite Hnum.
    + destruct (zEvalAddFallback host (vm m) left right) as [v1 res].
      cbn [fst snd] in *. now rewrite (Hneq _ Hc).
    + destruct (zEvalSubFallback host (vm m) left right) as [v1 res].
      cbn [fst snd] in *. now rewrite (Hneq _ Hc).
  - intros Hc. cbn [execOp]. unfold op_List.
    destruct (zAllocList host (vm m) (slot (stack m) (pcAt m 1)) (pcAt m 2))
      as [v1 res].
    cbn [fst snd] in *. now rewrite (Hneq _ Hc).
  - intros call Hc. cbn [execOp]. unfold op_CallObjSym. fold recv. fold call.
    destruct call as [v1 res]. cbn [fst snd] in *. now rewrite (Hneq _ Hc).
Qed.

End ResultCodes.


Lemma outside_failure_is_returned_witness :
  execOp Demo.host CodeAdd (Demo.addInt (VALUE_INTEGER 1) (VALUE_INTEGER 2)) =
  Return RES_CODE_PANIC (Demo.addInt (VALUE_INTEGER 1) (VALUE_INTEGER 2)).
Proof.
  refine (proj1 (proj1 (outside_failure_is_returned Demo.host
            (Demo.addInt (VALUE_INTEGER 1) (VALUE_INTEGER 2))) eq_refl) _).
  discriminate.
Defined.

(** ** Native function calls *)

Section NativeCalls.

Context (host : Host).


End NativeCalls.


(** ** Opcode bytes *)

Lemma jumpTable_NoDup : NoDup jumpTable.
Proof.
  unfold jumpTable.
  repeat (apply NoDup_cons;
          [ intros H; cbn [In] in H;
            repeat (destruct H as [H | H]; [discriminate H | ]); exact H | ]).
  apply NoDup_nil.
Qed.

Lemma jumpTable_complete (op : OpCode) : In op jumpTable.
Proof.
  unfold jumpTable.
  destruct op; cbn [In]; repeat (first [left; reflexivity | right]).
Qed.

Lemma Byte_to_N_inj (a b : Byte.byte) : Byte.to_N a = Byte.to_N b -> a = b.
Proof.
  intros H. pose proof (Byte.of_to_N a) as Ha. rewrite H, Byte.of_to_N in Ha.
  now injection Ha.
Qed.

Section OpcodeBytes.

Context (host : Host).

(** X17: opcode bytes and opcodes correspond one to one.  The bytes 0 to
    93 each select one entry of the jump table and the bytes from 94 on
    select none, in which case the dispatch has no case to run; no
    opcode appears twice in the table, so every opcode has exactly one
    byte. *)
Theorem opcode_bytes_one_to_one (m : Machine) :
  (forall b, decodeOp b = None <-> 94 <= u8 b) /\
  (94 <= u8 (bytecode (vm m) (pc m)) -> step host m = Undefined m) /\
  (forall op, exists b, decodeOp b = Some op /\ 0 <= u8 b <= 93 /\
                        forall b1, decodeOp b1 = Some op -> b1 = b).
Proof.
  assert (Hnone : forall b, decodeOp b = None <-> 94 <= u8 b).
  { intros b. unfold decodeOp, u8. rewrite nth_error_None.
    change (length jumpTable) with 94%nat. lia. }
  assert (Hinj : forall b b1 op, decodeOp b = Some op -> decodeOp b1 = Some op -> b1 = b).
  { intros b b1 op Hb Hb1. unfold decodeOp in *.
    apply Byte_to_N_inj.
    assert (Hi : N.to_nat (Byte.to_N b) = N.to_nat (Byte.to_N b1)); [ | lia].
    apply (proj1 (NoDup_nth_error jumpTable) jumpTable_NoDup).
    - apply nth_error_Some. rewrite Hb. discriminate.
    - now rewrite Hb, Hb1. }
  split; [exact Hnone | ]. split.
  - intros Hb. unfold step. now rewrite (proj2 (Hnone _) Hb).
  - intros op.
    destruct (In_nth_error jumpTable op (jumpTable_complete op)) as [n Hn].
    assert (Hlt : (n < 94)%nat).
    { change 94%nat with (length jumpTable). apply nth_error_Some.
      rewrite Hn. discriminate. }
    destruct (Byte.of_N (N.of_nat n)) as [b | ] eqn:Hb.
    + apply Byte.to_of_N in Hb.
      assert (Hd : decodeOp b = Some op).
      { unfold decodeOp. rewrite Hb.
        now replace (N.to_nat (N.of_nat n)) with n by lia. }
      exists b. split; [exact Hd | ]. split.
      * unfold u8. rewrite Hb. lia.
      * intros b1 Hb1. exact (Hinj b b1 op Hd Hb1).
    + apply Byte.of_N_None_iff in Hb. lia.
Qed.

End OpcodeBytes.

(** ** Range loops, continued *)

Section ForRangeStep.

Context (host : Host).




End ForRangeStep.


(** The loop from 0.0 to 5.0 by 1.0 takes [ForRange] round four times
    and leaves the fifth time, with 4.0 in the counter. *)
Example ex_ForRange_counts_to_end :
  map (fun c => Binary64.add c Demo.d1)
      [Demo.d0; Demo.d1; 0x4000000000000000; 0x4008000000000000; 0x4010000000000000] =
  [Demo.d1; 0x4000000000000000; 0x4008000000000000; 0x4010000000000000; Demo.d5] /\
  F64.ltb 0x4010000000000000 Demo.d5 = true /\ F64.ltb Demo.d5 Demo.d5 = false.
Proof. vm_compute. repeat split. Qed.

(** ** A whole program *)

Section Programs.

Context (host : Host).

(** Once the loop has ended, more fuel changes nothing. *)
Lemma dispatch_more_fuel (fuel k : nat) (m : Machine) (o : Outcome) :
  dispatch host fuel m = o -> (forall m1, o <> Next m1) ->
  dispatch host (fuel + k) m = o.
Proof.
  revert m. induction fuel as [ | f IH]; intros m Hd Hn.
  - cbn [dispatch] in Hd. subst o. now destruct (Hn m).
  - cbn [dispatch Nat.add] in *.
    destruct (step host m) as [m1 | r m1 | m1 | m1 | m1]; try exact Hd.
    now apply IH.
Qed.

Lemma stackAt_advance (m : Machine) (n k : Z) :
  stackAt (advance m n) k = stackAt m k.
Proof. reflexivity. Qed.

Lemma to_i32_u8 (b : Byte.byte) : to_i32 (u8 b) = u8 b.
Proof. apply to_i32_id. pose proof (u8_range b). unfold is_i32. lia. Qed.

(** X19: the program [ConstI8Int a, r0; ConstI8Int b, r1; AddInt r0,
    r1, r2; End] returns Success after four instructions, for every
    pair of operand bytes and with any fuel from 4 on.  When [End] is
    reached register 2 holds the integer [a + b], a value between 0 and
    510 that is integer-tagged and no pointer, and pc stands on [End];
    the VM returned is the one [zEnd] makes of that state. *)
Theorem sum_program_returns_sum (a b : Byte.byte) (fuel : nat) :
  (4 <= fuel)%nat ->
  exists v1,
    execBytecode host fuel (Prog.sumVM a b) =
      Return RES_CODE_SUCCESS (mkMachine 1010 2000 (zEnd host v1 1010)) /\
    stackMem v1 (slot 2000 2) = VALUE_INTEGER (u8 a + u8 b) /\
    VALUE_AS_INTEGER (stackMem v1 (slot 2000 2)) = u8 a + u8 b /\
    VALUE_IS_INTEGER (stackMem v1 (slot 2000 2)) = true /\
    VALUE_IS_POINTER (stackMem v1 (slot 2000 2)) = false.
Proof.
  intros Hfuel.
  pose proof (u8_range a) as Ha. pose proof (u8_range b) as Hb.
  set (m0 := mkMachine 1000 2000 (Prog.sumVM a b)).
  set (m1 := advance (setStack m0 0 (VALUE_INTEGER (u8 a))) 3).
  set (m2 := advance (setStack m1 1 (VALUE_INTEGER (u8 b))) 3).
  set (m3 := advance (setStack m2 2 (VALUE_INTEGER (u8 a + u8 b))) 4).
  assert (S0 : step host m0 = Next m1).
  { unfold step. change (decodeOp (bytecode (vm m0) (pc m0))) with (Some CodeConstI8Int).
    cbn [execOp]. unfold op_ConstI8Int.
    change (pcAt m0 1) with (u8 a). change (pcAt m0 2) with 0.
    now rewrite to_i32_u8. }
  assert (S1 : step host m1 = Next m2).
  { unfold step. change (decodeOp (bytecode (vm m1) (pc m1))) with (Some CodeConstI8Int).
    cbn [execOp]. unfold op_ConstI8Int.
    change (pcAt m1 1) with (u8 b). change (pcAt m1 2) with 1.
    now rewrite to_i32_u8. }
  assert (R0 : stackAt m2 0 = VALUE_INTEGER (u8 a)).
  { unfold m2, m1. now rewrite !stackAt_advance, !stackAt_setStack. }
  assert (R1 : stackAt m2 1 = VALUE_INTEGER (u8 b)).
  { unfold m2. now rewrite !stackAt_advance, !stackAt_setStack. }
  assert (S2 : step host m2 = Next m3).
  { unfold step. change (decodeOp (bytecode (vm m2) (pc m2))) with (Some CodeAddInt).
    cbn [execOp]. unfold op_AddInt.
    change (pcAt m2 1) with 0. change (pcAt m2 2) with 1. change (pcAt m2 3) with 2.
    rewrite R0, R1.
    rewrite !VALUE_AS_INTEGER_VALUE_INTEGER by (unfold is_i32; lia).
    rewrite to_i32_id by (unfold is_i32; lia). reflexivity. }
  assert (S3 : step host m3 =
               Return RES_CODE_SUCCESS (mkMachine 1010 2000 (zEnd host (vm m3) 1010))).
  { unfold step. change (decodeOp (bytecode (vm m3) (pc m3))) with (Some CodeEnd).
    reflexivity. }
  assert (R2 : stackMem (vm m3) (slot 2000 2) = VALUE_INTEGER (u8 a + u8 b)).
  { change (stackMem (vm m3) (slot 2000 2)) with (stackAt m3 2).
    unfold m3. now rewrite stackAt_advance, stackAt_setStack. }
  exists (vm m3). rewrite R2.
  split.
  - replace fuel with (4 + (fuel - 4))%nat by lia.
    unfold execBytecode. change (mkMachine _ _ (Prog.sumVM a b)) with m0.
    apply dispatch_more_fuel; [ | discriminate].
    rewrite (dispatch_Next host 3 m0 m1 S0), (dispatch_Next host 2 m1 m2 S1),
            (dispatch_Next host 1 m2 m3 S2).
    now apply dispatch_Return.
  - split; [reflexivity | ].
    split; [apply VALUE_AS_INTEGER_VALUE_INTEGER; unfold is_i32; lia | ].
    apply VALUE_INTEGER_nonneg. lia.
Qed.

End Programs.

Lemma sum_program_returns_sum_witness :
  exists v1,
    execBytecode Demo.host 4 (Prog.sumVM Byte.x03 Byte.x04) =
      Return RES_CODE_SUCCESS (mkMachine 1010 2000 v1) /\
    stackMem v1 (slot 2000 2) = VALUE_INTEGER 7.
Proof.
  destruct (sum_program_returns_sum Demo.host Byte.x03 Byte.x04 4 (le_n 4))
    as (v1 & He & Hs & _).
  exists v1. split; [exact He | exact Hs].
Defined.

(** ** The tests of vm.c *)

(** X20: the four kind tests of vm.c exclude one another.  No 64-bit
    word, indeed no integer at all, passes two of [VALUE_IS_NUMBER],
    [VALUE_IS_NONE], [VALUE_IS_BOOLEAN] and [VALUE_IS_POINTER]; and
    [VALUE_IS_NONE] holds of [VALUE_NONE] only, while a Boolean word is
    read as true by [VALUE_AS_BOOLEAN] only when it is [VALUE_TRUE]. *)
Theorem source_tests_exclusive (v : Value) :
  (Nat.b2n (VALUE_IS_NUMBER v) + Nat.b2n (VALUE_IS_NONE v)
   + Nat.b2n (VALUE_IS_BOOLEAN v) + Nat.b2n (VALUE_IS_POINTER v) <= 1)%nat /\
  (VALUE_IS_NONE v = true <-> v = VALUE_NONE) /\
  (VALUE_AS_BOOLEAN v = true <-> v = VALUE_TRUE) /\
  (VALUE_AS_BOOLEAN v = true -> VALUE_IS_BOOLEAN v = true).
Proof.
  split; [ | split; [ | split ] ].
  - pose proof (value_kinds_exclusive v) as H.
    destruct (VALUE_IS_NUMBER v), (VALUE_IS_NONE v), (VALUE_IS_BOOLEAN v),
             (VALUE_IS_INTEGER v), (VALUE_IS_ERROR v), (VALUE_IS_POINTER v),
             (VALUE_IS_OTHER_PRIMITIVE v); cbn [Nat.b2n Nat.add] in *; lia.
  - unfold VALUE_IS_NONE, VALUE_NONE. apply Z.eqb_eq.
  - unfold VALUE_AS_BOOLEAN, VALUE_TRUE. apply Z.eqb_eq.
  - unfold VALUE_AS_BOOLEAN. intros E. apply Z.eqb_eq in E. now subst v.
Qed.
